(** * meshroom/ui/graph.py: ChunksMonitor and UIGraph

    A shallow embedding of [src/meshroom/ui/graph.py].  The two classes of
    the file share one Qt object tree, so the embedding keeps them in one
    record, [World], and every method is a function over it.  Signals that
    the file emits are appended to [trace]; a slot that the file connects to
    a signal is called at the point of emission, as a direct Qt connection
    does.  Methods that can raise return a [Result]. *)

From stdpp Require Import base gmap strings list fin_maps pretty.
From Stdlib Require Import ZArith.

Open Scope Z_scope.

(** ** Collaborator data (meshroom.core) *)

(** [meshroom.core.node.Status]. *)
Inductive Status := NONE | SUBMITTED | RUNNING | ERROR | STOPPED | KILLED | SUCCESS.

#[global] Instance Status_eq_dec : EqDecision Status.
Proof. solve_decision. Defined.

(** A [NodeChunk]: the owning node, the index of the chunk in its node and
    the path of its status file.  Python compares chunks by identity; here
    two chunks are the same object when the three fields agree. *)
Record NodeChunk := mkChunk {
  node : string;
  index : nat;
  statusFile : string
}.

#[global] Instance NodeChunk_eq_dec : EqDecision NodeChunk.
Proof. solve_decision. Defined.

#[global] Instance NodeChunk_countable : Countable NodeChunk.
Proof.
  refine (inj_countable' (fun c => (node c, index c, statusFile c))
                         (fun t => mkChunk t.1.1 t.1.2 t.2) _).
  by intros [].
Defined.

Record Node := mkNode {
  nodeName : string;
  nodeChunks : list NodeChunk
}.

(** An attribute is named by its full name and the indices that lead to it
    inside nested list attributes.  [listDepth] is the nesting of
    [ListAttribute] in its description: [0] for a plain attribute,
    [S n] for a list whose elements have depth [n]. *)
Record Attribute := mkAttr {
  attrName : string;
  listDepth : nat;
  attrPath : list nat
}.

#[global] Instance Attribute_eq_dec : EqDecision Attribute.
Proof. solve_decision. Defined.

#[global] Instance Attribute_countable : Countable Attribute.
Proof.
  refine (inj_countable' (fun a => (attrName a, listDepth a, attrPath a))
                         (fun t => mkAttr t.1.1 t.1.2 t.2) _).
  by intros [].
Defined.

(** [isinstance(a, ListAttribute)] *)
Definition isListAttribute (a : Attribute) : bool :=
  bool_decide (listDepth a ≠ 0%nat).

(** The element of list attribute [a] at position [i]. *)
Definition element (a : Attribute) (i : nat) : Attribute :=
  mkAttr (attrName a) (pred (listDepth a)) (attrPath a ++ [i]).

Definition fullName (a : Attribute) : string :=
  foldl (fun s i => s +:+ "[" +:+ pretty i +:+ "]")%string (attrName a) (attrPath a).

(** The graph, as far as this file looks into it: its nodes, the number of
    elements of each list attribute (absent: empty) and its edges, keyed by
    destination as in [Graph.edges]. *)
Record Graph := mkGraph {
  nodes : list Node;
  listSizes : gmap Attribute nat;
  edges : gmap Attribute Attribute
}.

Definition listSize (g : Graph) (a : Attribute) : nat :=
  default 0%nat (listSizes g !! a).

(** ** The file system, as [os.path] sees it *)

(** A status file is missing, exists but cannot be examined ([os.stat]
    fails with a permission or I/O error), or is present with a modification
    time and the status written in it.  Modification times are integers
    (ticks of the file system clock). *)
Inductive FileState :=
| Missing
| Unreadable
| Present (mtime : Z) (content : Status).

Definition FileSystem := string -> FileState.

Inductive Exception := OSError | AssertionError | AttributeError | IndexError.

#[global] Instance Exception_eq_dec : EqDecision Exception.
Proof. solve_decision. Defined.

Inductive Result (A : Type) :=
| Ok (a : A)
| Raise (e : Exception).
Arguments Ok {A} a.
Arguments Raise {A} e.

#[global] Instance Result_ret : MRet Result := fun A a => Ok a.
#[global] Instance Result_bind : MBind Result := fun A B f m =>
  match m with
  | Ok a => f a
  | Raise e => Raise e
  end.

(** [os.stat(f).st_mtime], raising [OSError] when the file cannot be
    examined. *)
Definition os_stat (fs : FileSystem) (f : string) : Result Z :=
  match fs f with
  | Present m _ => Ok m
  | Missing | Unreadable => Raise OSError
  end.

(** [os.path.exists]: [os.stat] succeeded; any [OSError] gives [False]. *)
Definition os_path_exists (fs : FileSystem) (f : string) : bool :=
  match os_stat fs f with
  | Ok _ => true
  | Raise _ => false
  end.

Definition os_path_getmtime (fs : FileSystem) (f : string) : Result Z :=
  os_stat fs f.

(** ** Undo stack (meshroom.ui.commands) *)

(** Python value handed to [ListAttributeAppendCommand]. *)
Inductive PyValue := PyNone | PyList | PyObject.

(** What [appendAttribute] receives as [value]: a [QJsonValue] (null, an
    array or an object) or a Python value passed as it is. *)
Inductive AppendValue := JsonNull | JsonArray | JsonObject | Python (v : PyValue).

Inductive Command :=
| ListAttributeAppendCommand (attribute : Attribute) (value : PyValue)
| AddEdgeCommand (src dst : Attribute).

Inductive UndoEntry :=
| Single (c : Command)
| Macro (title : string) (cs : list Command).

(** Modelled from the spec: [commands.UndoStack], which is not part of this
    file.  [history] holds the applied entries, most recent first;
    [redoTail] the undone ones, next to redo first; [macroDepth] counts the
    open [beginMacro] calls and [pending] collects, oldest first, the
    commands pushed since the outermost one. *)
Record UndoStack := mkUndoStack {
  history : list UndoEntry;
  redoTail : list UndoEntry;
  macroDepth : nat;
  pendingTitle : string;
  pending : list Command
}.

Definition emptyUndoStack : UndoStack := mkUndoStack [] [] 0 "" [].

(** ** Threads *)

(** [threading.Thread] running [UIGraph._execute(nodes)]: created and not
    started, started and about to enter [_execute], inside [executeGraph],
    or terminated. *)
Inductive Thread :=
| Unstarted
| Spawned (nodes : option (list Node))
| Executing (nodes : option (list Node))
| Finished.

Definition is_alive (t : Thread) : bool :=
  match t with
  | Spawned _ | Executing _ => true
  | Unstarted | Finished => false
  end.

(** How [executeGraph] ends. *)
Inductive Outcome := Returned | Raised (message : string).

(** ** Observable events *)

(** Second argument of [chunkStatusChanged]: a chunk status, or the
    literal [-1] that [setChunks] sends. *)
Inductive StatusArg := OfStatus (s : Status) | MinusOne.

Inductive Event :=
| StatusChangedConnected (c : NodeChunk)
| StatusChangedDisconnected (c : NodeChunk)
| UpdateStatusFromCache (c : NodeChunk)
| LogDebug (c : NodeChunk) (s : Status)
| LogError (message : string)
| ChunkStatusChanged (c : option NodeChunk) (s : StatusArg)
| ComputeStatusChanged
| GraphChanged
| GraphDeleteLater
| GraphUpdatedConnected
| GraphStopExecution
| ThreadStart (nodes : option (list Node))
| ThreadJoin.

#[global] Instance StatusArg_eq_dec : EqDecision StatusArg.
Proof. solve_decision. Defined.

#[global] Instance Node_eq_dec : EqDecision Node.
Proof. solve_decision. Defined.

#[global] Instance Event_eq_dec : EqDecision Event.
Proof. solve_decision. Defined.

(** ** The object tree *)

Record World := mkWorld {
  (* ChunksMonitor *)
  lastModificationRecords : gmap NodeChunk Z;
  (* NodeChunk.status.status of every chunk object (absent: NONE) *)
  chunkStatus : gmap NodeChunk Status;
  (* UIGraph *)
  _undoStack : UndoStack;
  _graph : option Graph;
  _modificationCount : nat;
  _computeThread : Thread;
  _running : bool;
  _submitted : bool;
  _sortedDFSChunks : list NodeChunk;
  (* signals emitted and collaborator calls made so far, oldest first *)
  trace : list Event
}.

Definition set_records (r : gmap NodeChunk Z) (w : World) : World :=
  mkWorld r (chunkStatus w) (_undoStack w) (_graph w) (_modificationCount w)
          (_computeThread w) (_running w) (_submitted w) (_sortedDFSChunks w) (trace w).

Definition set_chunkStatus (s : gmap NodeChunk Status) (w : World) : World :=
  mkWorld (lastModificationRecords w) s (_undoStack w) (_graph w) (_modificationCount w)
          (_computeThread w) (_running w) (_submitted w) (_sortedDFSChunks w) (trace w).

Definition set_undoStack (u : UndoStack) (w : World) : World :=
  mkWorld (lastModificationRecords w) (chunkStatus w) u (_graph w) (_modificationCount w)
          (_computeThread w) (_running w) (_submitted w) (_sortedDFSChunks w) (trace w).

Definition set_graph (g : option Graph) (w : World) : World :=
  mkWorld (lastModificationRecords w) (chunkStatus w) (_undoStack w) g (_modificationCount w)
          (_computeThread w) (_running w) (_submitted w) (_sortedDFSChunks w) (trace w).

Definition set_modificationCount (n : nat) (w : World) : World :=
  mkWorld (lastModificationRecords w) (chunkStatus w) (_undoStack w) (_graph w) n
          (_computeThread w) (_running w) (_submitted w) (_sortedDFSChunks w) (trace w).

Definition set_computeThread (t : Thread) (w : World) : World :=
  mkWorld (lastModificationRecords w) (chunkStatus w) (_undoStack w) (_graph w)
          (_modificationCount w) t (_running w) (_submitted w) (_sortedDFSChunks w) (trace w).

Definition set_flags (r s : bool) (w : World) : World :=
  mkWorld (lastModificationRecords w) (chunkStatus w) (_undoStack w) (_graph w)
          (_modificationCount w) (_computeThread w) r s (_sortedDFSChunks w) (trace w).

Definition set_sortedDFSChunks (l : list NodeChunk) (w : World) : World :=
  mkWorld (lastModificationRecords w) (chunkStatus w) (_undoStack w) (_graph w)
          (_modificationCount w) (_computeThread w) (_running w) (_submitted w) l (trace w).

Definition emit (e : Event) (w : World) : World :=
  mkWorld (lastModificationRecords w) (chunkStatus w) (_undoStack w) (_graph w)
          (_modificationCount w) (_computeThread w) (_running w) (_submitted w)
          (_sortedDFSChunks w) (trace w ++ [e]).

(** [chunk.status.status] *)
Definition status (w : World) (c : NodeChunk) : Status :=
  default NONE (chunkStatus w !! c).

(** ** Collaborators whose code is outside this file *)

(** - [updateStatusFromCache fs c s]: [NodeChunk.updateStatusFromCache] on
      chunk [c] whose in-memory status is [s]: the status it leaves in the
      chunk, and whether the chunk emitted its own [statusChanged].
    - [dfsOnFinish g]: first component of [Graph.dfsOnFinish(None)].
    - [getChunks g ns]: [Graph.getChunks(ns)].
    - [edgeAccepted g src dst]: whether [Graph.addEdge(src, dst)] goes
      through.
    Calls into the collaborators are taken to return. *)
Class Collaborators := {
  updateStatusFromCache : FileSystem -> NodeChunk -> Status -> Status * bool;
  dfsOnFinish : Graph -> list Node;
  getChunks : Graph -> list Node -> list NodeChunk;
  edgeAccepted : Graph -> Attribute -> Attribute -> bool
}.

(** A status record in the file system at path [f], seen through
    [getFileLastModTime]: its modification time, or [-1]. *)
Definition indicator (fs : FileSystem) (f : string) : Z :=
  match fs f with
  | Present m _ => m
  | Missing | Unreadable => -1
  end.

(** Monadic left fold: the body of a [for] loop that may raise. *)
Fixpoint foldM {A B : Type} (f : B -> A -> Result B) (l : list A) (b : B) : Result B :=
  match l with
  | [] => Ok b
  | a :: l' => b' ← f b a; foldM f l' b'
  end.

Section Program.
Context {K : Collaborators}.

(** ** UIGraph.onChunkStatusChanged (lines 189-196) *)

Definition anyStatus (s : Status) (w : World) : bool :=
  existsb (fun ch => bool_decide (status w ch = s)) (_sortedDFSChunks w).

Definition UIGraph_onChunkStatusChanged (w : World) : World :=
  let running := anyStatus RUNNING w in
  let submitted := anyStatus SUBMITTED w in
  if negb (eqb (_running w) running) || negb (eqb (_submitted w) submitted)
  then emit ComputeStatusChanged (set_flags running submitted w)
  else w.

(** [self.chunkStatusChanged.emit(chunk, status)]: the signal is connected
    to [UIGraph.onChunkStatusChanged] in [UIGraph.__init__]. *)
Definition chunkStatusChanged_emit (c : option NodeChunk) (s : StatusArg) (w : World) : World :=
  UIGraph_onChunkStatusChanged (emit (ChunkStatusChanged c s) w).

(** ** ChunksMonitor (lines 16-76) *)

(** [getFileLastModTime] (lines 62-65) *)
Definition getFileLastModTime (fs : FileSystem) (f : string) : Result Z :=
  if os_path_exists fs f then os_path_getmtime fs f else Ok (-1).

(** [clear] (lines 45-49) *)
Definition ChunksMonitor_clear (w : World) : World :=
  let w' := foldl (fun w ch => emit (StatusChangedDisconnected ch) w) w
                  (map fst (map_to_list (lastModificationRecords w))) in
  set_records ∅ w'.

(** [setChunks] (lines 34-43) *)
Definition setChunks_step (fs : FileSystem) (w : World) (chunk : NodeChunk) : Result World :=
  let f := statusFile chunk in
  t ← getFileLastModTime fs f;
  Ok (emit (StatusChangedConnected chunk)
           (set_records (<[chunk := t]> (lastModificationRecords w)) w)).

Definition setChunks (fs : FileSystem) (chunks : list NodeChunk) (w : World) : Result World :=
  w' ← foldM (setChunks_step fs) chunks (ChunksMonitor_clear w);
  Ok (chunkStatusChanged_emit None MinusOne w').

(** [onChunkStatusChanged] (lines 54-60); [chunk] is [self.sender()]. *)
Definition ChunksMonitor_onChunkStatusChanged (fs : FileSystem) (chunk : NodeChunk) (w : World)
  : Result World :=
  if decide (is_Some (lastModificationRecords w !! chunk)) then
    t ← getFileLastModTime fs (statusFile chunk);
    let w' := set_records (<[chunk := t]> (lastModificationRecords w)) w in
    Ok (chunkStatusChanged_emit (Some chunk) (OfStatus (status w' chunk)) w')
  else Raise AssertionError.

(** [chunk.updateStatusFromCache()]: the collaborator refreshes the status
    of the chunk; when it announces the change through the chunk's own
    [statusChanged], the slot connected by [setChunks] runs. *)
Definition chunk_updateStatusFromCache (fs : FileSystem) (chunk : NodeChunk) (w : World)
  : Result World :=
  let r := updateStatusFromCache fs chunk (status w chunk) in
  let w' := set_chunkStatus (<[chunk := r.1]> (chunkStatus w))
                            (emit (UpdateStatusFromCache chunk) w) in
  if r.2 then ChunksMonitor_onChunkStatusChanged fs chunk w' else Ok w'.

(** [checkFileTimes] (lines 67-74) *)
Definition checkFileTimes_step (fs : FileSystem) (w : World) (item : NodeChunk * Z)
  : Result World :=
  let chunk := item.1 in
  let t := item.2 in
  lastMod ← getFileLastModTime fs (statusFile chunk);
  if decide (lastMod ≠ t) then
    w' ← chunk_updateStatusFromCache fs chunk
           (set_records (<[chunk := lastMod]> (lastModificationRecords w)) w);
    Ok (emit (LogDebug chunk (status w' chunk)) w')
  else Ok w.

Definition checkFileTimes (fs : FileSystem) (w : World) : Result World :=
  foldM (checkFileTimes_step fs) (map_to_list (lastModificationRecords w)) w.

(** [timerEvent] (lines 51-52) *)
Definition timerEvent (fs : FileSystem) (w : World) : Result World :=
  checkFileTimes fs w.


(** ** Commands and the undo stack (meshroom.ui.commands) *)

(** Modelled from the spec: whether the graph accepts the edit of a command
    ("validation failure in the underlying graph op").  Appending needs a
    list attribute; an edge needs the consent of [Graph.addEdge]. *)
Definition accepts (g : Graph) (c : Command) : bool :=
  match c with
  | ListAttributeAppendCommand a _ => isListAttribute a
  | AddEdgeCommand s d => edgeAccepted g s d
  end.

(** Modelled from the spec: the edit of a command, applied to the graph. *)
Definition redoImpl (c : Command) (g : Graph) : Graph :=
  match c with
  | ListAttributeAppendCommand a _ =>
      mkGraph (nodes g) (<[a := S (listSize g a)]> (listSizes g)) (edges g)
  | AddEdgeCommand s d =>
      mkGraph (nodes g) (listSizes g) (<[d := s]> (edges g))
  end.

(** Modelled from the spec: the inverse edit of a command. *)
Definition undoImpl (c : Command) (g : Graph) : Graph :=
  match c with
  | ListAttributeAppendCommand a _ =>
      mkGraph (nodes g) (<[a := pred (listSize g a)]> (listSizes g)) (edges g)
  | AddEdgeCommand s d =>
      mkGraph (nodes g) (listSizes g) (delete d (edges g))
  end.

Definition commandsOf (e : UndoEntry) : list Command :=
  match e with
  | Single c => [c]
  | Macro _ cs => cs
  end.

(** Modelled from the spec: an entry is redone in declaration order and
    undone in exact reverse order. *)
Definition redoEntry (e : UndoEntry) (g : Graph) : Graph :=
  foldl (fun g c => redoImpl c g) g (commandsOf e).

Definition undoEntry (e : UndoEntry) (g : Graph) : Graph :=
  foldl (fun g c => undoImpl c g) g (reverse (commandsOf e)).

(** Modelled from the spec: recording an applied command discards the redo
    tail; inside an open macro the command joins the macro. *)
Definition record (c : Command) (u : UndoStack) : UndoStack :=
  match macroDepth u with
  | O => mkUndoStack (Single c :: history u) [] O (pendingTitle u) (pending u)
  | S _ => mkUndoStack (history u) (redoTail u) (macroDepth u) (pendingTitle u)
                       (pending u ++ [c])
  end.

(** Modelled from the spec: [UndoStack.tryAndPush].  A rejected command is
    not recorded and leaves everything as it was; an accepted one is applied
    once and recorded. *)
Definition tryAndPush (c : Command) (w : World) : bool * World :=
  match _graph w with
  | Some g =>
      if accepts g c
      then (true, set_undoStack (record c (_undoStack w)) (set_graph (Some (redoImpl c g)) w))
      else (false, w)
  | None => (false, w)
  end.

(** Modelled from the spec: [beginMacro] and [endMacro] nest; the outermost
    pair delimits one entry of the history. *)
Definition beginMacro (title : string) (u : UndoStack) : UndoStack :=
  match macroDepth u with
  | O => mkUndoStack (history u) (redoTail u) 1 title []
  | S n => mkUndoStack (history u) (redoTail u) (S (S n)) (pendingTitle u) (pending u)
  end.

Definition endMacro (u : UndoStack) : Result UndoStack :=
  match macroDepth u with
  | O => Raise AssertionError
  | S O => Ok (mkUndoStack (Macro (pendingTitle u) (pending u) :: history u) [] O "" [])
  | S (S n) => Ok (mkUndoStack (history u) (redoTail u) (S n) (pendingTitle u) (pending u))
  end.

(** Modelled from the spec: [UndoStack.clear]. *)
Definition UndoStack_clear (u : UndoStack) : UndoStack := emptyUndoStack.

(** Modelled from the spec: [UndoStack.undo] and [UndoStack.redo] move the
    cursor over one entry and revert or reapply all its commands; with
    nothing to undo or redo, or inside an open macro, they do nothing. *)
Definition undo (w : World) : World :=
  match macroDepth (_undoStack w), history (_undoStack w), _graph w with
  | O, e :: h, Some g =>
      set_undoStack (mkUndoStack h (e :: redoTail (_undoStack w)) O
                                 (pendingTitle (_undoStack w)) (pending (_undoStack w)))
                    (set_graph (Some (undoEntry e g)) w)
  | _, _, _ => w
  end.

Definition redo (w : World) : World :=
  match macroDepth (_undoStack w), redoTail (_undoStack w), _graph w with
  | O, e :: r, Some g =>
      set_undoStack (mkUndoStack (e :: history (_undoStack w)) r O
                                 (pendingTitle (_undoStack w)) (pending (_undoStack w)))
                    (set_graph (Some (redoEntry e g)) w)
  | _, _, _ => w
  end.

Definition canUndo (w : World) : bool :=
  bool_decide (macroDepth (_undoStack w) = O ∧ history (_undoStack w) ≠ []).

Definition canRedo (w : World) : bool :=
  bool_decide (macroDepth (_undoStack w) = O ∧ redoTail (_undoStack w) ≠ []).

(** Modelled from the spec: [commands.GroupedGraphModification], the context
    manager behind [with self.groupedGraphModification(title):].  The macro
    is closed on the way out, also when the body raises. *)
Definition groupedGraphModification (title : string) (body : World -> Result World)
  (w : World) : Result World :=
  let w1 := set_undoStack (beginMacro title (_undoStack w)) w in
  match body w1 with
  | Ok w2 => u ← endMacro (_undoStack w2); Ok (set_undoStack u w2)
  | Raise e => Raise e
  end.

(** ** UIGraph (lines 79-330) *)

(** [isComputingLocally] (lines 206-208) *)
Definition isComputingLocally (w : World) : bool :=
  is_alive (_computeThread w).

(** [isComputingExternally] (lines 202-204) *)
Definition isComputingExternally (w : World) : bool :=
  (_running w || _submitted w) && negb (isComputingLocally w).

(** [isComputing] (lines 198-200) *)
Definition isComputing (w : World) : bool :=
  isComputingLocally w || isComputingExternally w.

(** [execute] (lines 151-157) *)
Definition execute (n : option Node) (w : World) : World :=
  if isComputing w then w
  else
    let nodes := match n with Some x => Some [x] | None => None end in
    emit (ThreadStart nodes) (set_computeThread (Spawned nodes) w).

(** [_execute] (lines 159-166), run by the compute thread: what it does
    before [executeGraph] and what it does once [executeGraph] is over. *)
Definition _execute_enter (w : World) : World :=
  match _computeThread w with
  | Spawned nodes => emit ComputeStatusChanged (set_computeThread (Executing nodes) w)
  | _ => w
  end.

Definition _execute_leave (o : Outcome) (w : World) : World :=
  match _computeThread w with
  | Executing _ =>
      let w' := match o with
                | Returned => w
                | Raised e => emit (LogError e) w
                end in
      set_computeThread Finished (emit ComputeStatusChanged w')
  | _ => w
  end.

(** [self._computeThread.join()]: the caller waits while the compute
    thread runs to its end; [o] is the way [executeGraph] ends. *)
Definition Thread_join (o : Outcome) (w : World) : World :=
  emit ThreadJoin (_execute_leave o (_execute_enter w)).

(** [stopExecution] (lines 168-174) *)
Definition stopExecution (o : Outcome) (w : World) : Result World :=
  if negb (isComputingLocally w) then Ok w
  else
    match _graph w with
    | None => Raise AttributeError
    | Some _ =>
        let w1 := emit GraphStopExecution w in
        let w2 := Thread_join o w1 in
        Ok (emit ComputeStatusChanged w2)
    end.

(** [updateChunks] (lines 113-121) *)
Definition updateChunks (fs : FileSystem) (w : World) : Result World :=
  match _graph w with
  | None => Raise AttributeError
  | Some g =>
      let dfsNodes := dfsOnFinish g in
      let chunks := getChunks g dfsNodes in
      if decide (_sortedDFSChunks w = chunks) then Ok w
      else
        let w' := set_sortedDFSChunks chunks w in
        setChunks fs (_sortedDFSChunks w') w'
  end.

(** [onGraphUpdated] (lines 108-111) *)
Definition onGraphUpdated (fs : FileSystem) (w : World) : Result World :=
  updateChunks fs w.

(** [clear] (lines 123-128) *)
Definition UIGraph_clear (w : World) : World :=
  let w1 := match _graph w with
            | Some _ => set_graph None (emit GraphDeleteLater w)
            | None => w
            end in
  let w2 := set_sortedDFSChunks [] w1 in
  set_undoStack (UndoStack_clear (_undoStack w2)) w2.

(** [setGraph] (lines 98-106).  [self._graph.update()] makes the graph emit
    [updated], to which [onGraphUpdated] has just been connected. *)
Definition setGraph (fs : FileSystem) (o : Outcome) (g : Graph) (w : World) : Result World :=
  w1 ← match _graph w with
       | Some _ => w' ← stopExecution o w; Ok (UIGraph_clear w')
       | None => Ok w
       end;
  let w2 := emit GraphUpdatedConnected (set_graph (Some g) w1) in
  w3 ← onGraphUpdated fs w2;
  Ok (emit GraphChanged w3).

(** [push] (lines 210-216) *)
Definition push (c : Command) (w : World) : bool * World :=
  tryAndPush c w.

(** [beginModification] and [endModification] (lines 230-240) *)
Definition beginModification (name : string) (w : World) : World :=
  let w' := set_modificationCount (S (_modificationCount w)) w in
  set_undoStack (beginMacro name (_undoStack w')) w'.

Definition endModification (w : World) : Result World :=
  match _modificationCount w with
  | O => Raise AssertionError
  | S n =>
      let w' := set_modificationCount n w in
      u ← endMacro (_undoStack w'); Ok (set_undoStack u w')
  end.

(** [appendAttribute] (lines 305-314) *)
Definition appendAttribute (attribute : Attribute) (value : AppendValue) (w : World) : World :=
  let pyValue := match value with
                 | JsonArray => PyList
                 | JsonNull => PyNone
                 | JsonObject => PyObject
                 | Python v => v
                 end in
  (push (ListAttributeAppendCommand attribute pyValue) w).2.

(** [dst.at(-1)]: the last element of a list attribute of the installed
    graph. *)
Definition at_last (a : Attribute) (w : World) : Result Attribute :=
  match _graph w with
  | None => Raise AttributeError
  | Some g =>
      match listSize g a with
      | O => Raise IndexError
      | S n => Ok (element a n)
      end
  end.

(** [addEdge] (lines 259-266) *)
Definition addEdge (src dst : Attribute) (w : World) : Result World :=
  if isListAttribute dst && negb (isListAttribute src) then
    groupedGraphModification ("Insert and Add Edge on " +:+ fullName dst)
      (fun w1 =>
         let w2 := appendAttribute dst JsonNull w1 in
         last ← at_last dst w2;
         Ok (push (AddEdgeCommand src last) w2).2)
      w
  else Ok (push (AddEdgeCommand src dst) w).2.

(** [UIGraph.__init__] (lines 85-96) with an empty [filepath]: an empty
    graph, no monitored chunk, a thread that was never started.  The monitor
    has emitted [chunkStatusChanged(None, -1)] from its own constructor,
    before UIGraph connected its slot. *)
Definition UIGraph_init : World :=
  mkWorld ∅ ∅ emptyUndoStack (Some (mkGraph [] ∅ ∅)) 0 Unstarted false false []
          [ChunkStatusChanged None MinusOne].

End Program.

(** ** Counting events *)

Definition countb {A : Type} (p : A -> bool) (l : list A) : nat :=
  length (List.filter p l).

Definition isRefresh (c : NodeChunk) (e : Event) : bool :=
  bool_decide (e = UpdateStatusFromCache c).

Definition isNotification (c : NodeChunk) (e : Event) : bool :=
  match e with
  | ChunkStatusChanged (Some c') _ => bool_decide (c' = c)
  | _ => false
  end.

Definition isComputeStatusChanged (e : Event) : bool :=
  bool_decide (e = ComputeStatusChanged).

Definition isThreadStart (e : Event) : bool :=
  match e with
  | ThreadStart _ => true
  | _ => false
  end.

(** Calls of [chunk.updateStatusFromCache()] made so far. *)
Definition refreshCount (c : NodeChunk) (w : World) : nat :=
  countb (isRefresh c) (trace w).

(** Emissions of [chunkStatusChanged(chunk, _)] made so far. *)
Definition notificationCount (c : NodeChunk) (w : World) : nat :=
  countb (isNotification c) (trace w).

Definition computeStatusChangedCount (w : World) : nat :=
  countb isComputeStatusChanged (trace w).

Definition threadStartCount (w : World) : nat :=
  countb isThreadStart (trace w).

(** ** A concrete collaborator, for examples *)

(** Modelled from the spec: [NodeChunk.updateStatusFromCache], which
    "re-parses the status record into the unit's in-memory status"; a record
    that does not exist resets the status, and the chunk announces
    [statusChanged] when its status is no longer the one it had.  The
    traversal lists the nodes in the order the graph stores them and every
    edge is accepted. *)
Definition exampleCollaborators : Collaborators := {|
  updateStatusFromCache fs c s :=
    let s' := match fs (statusFile c) with
              | Present _ content => content
              | Missing | Unreadable => NONE
              end in
    (s', bool_decide (s ≠ s'));
  dfsOnFinish g := nodes g;
  getChunks g ns := concat (map nodeChunks ns);
  edgeAccepted g s d := true
|}.

Definition chunkA : NodeChunk := mkChunk "A" 0 "cache/A/0.status".
Definition chunkB : NodeChunk := mkChunk "B" 0 "cache/B/0.status".

(** A file system holding the given state at one path and nothing else. *)
Definition oneFile (f : string) (s : FileState) : FileSystem :=
  fun f' => if decide (f' = f) then s else Missing.

Definition twoFiles (f1 : string) (s1 : FileState) (f2 : string) (s2 : FileState)
  : FileSystem :=
  fun f' => if decide (f' = f1) then s1 else if decide (f' = f2) then s2 else Missing.

(** Three poll ticks in a row. *)
Definition threeTicks {K : Collaborators} (fs1 fs2 fs3 : FileSystem) (w : World) : Result World :=
  w1 ← checkFileTimes fs1 w; w2 ← checkFileTimes fs2 w1; checkFileTimes fs3 w2.

(** Whether a poll tick sees a change for a chunk whose stored value is
    [t], and whether the refresh of the chunk then announces a change of
    status. *)
Definition changed (fs : FileSystem) (c : NodeChunk) (t : Z) : bool :=
  bool_decide (indicator fs (statusFile c) ≠ t).

Definition announces {K : Collaborators} (fs : FileSystem) (c : NodeChunk) (s : Status) : bool :=
  (updateStatusFromCache fs c s).2.

Definition delta (b : bool) : nat := if b then 1%nat else 0%nat.

(** The fields of the object tree that the monitor never writes. *)
Definition sameUIGraph (w w' : World) : Prop :=
  _undoStack w' = _undoStack w ∧ _graph w' = _graph w ∧
  _modificationCount w' = _modificationCount w ∧
  _computeThread w' = _computeThread w ∧
  _sortedDFSChunks w' = _sortedDFSChunks w.

(** What a poll tick leaves for a chunk that is not among the items. *)
Definition untouched (c : NodeChunk) (w w' : World) : Prop :=
  lastModificationRecords w' !! c = lastModificationRecords w !! c ∧
  chunkStatus w' !! c = chunkStatus w !! c ∧
  refreshCount c w' = refreshCount c w ∧
  notificationCount c w' = notificationCount c w.

(** What a poll tick does for a chunk whose item is [(c, t)]. *)
Definition polled {K : Collaborators} (fs : FileSystem) (c : NodeChunk) (t : Z) (w w' : World) : Prop :=
  lastModificationRecords w' !! c = Some (indicator fs (statusFile c)) ∧
  status w' c = (if changed fs c t then (updateStatusFromCache fs c (status w c)).1
                 else status w c) ∧
  refreshCount c w' = (refreshCount c w + delta (changed fs c t))%nat ∧
  notificationCount c w' =
    (notificationCount c w + delta (changed fs c t && announces fs c (status w c)))%nat.

(** Poll ticks in a row, one per state of the file system. *)
Definition ticks {K : Collaborators} (fss : list FileSystem) (w : World) : Result World :=
  foldM (fun w fs => checkFileTimes fs w) fss w.

(** What can happen between a call of [execute] and the end of the compute
    thread it started: further calls of [execute], and the thread entering
    [_execute]. *)
Inductive Activity :=
| CallExecute (n : option Node)
| ThreadEnters.

#[global] Instance Activity_eq_dec : EqDecision Activity.
Proof. solve_decision. Defined.

Definition act (w : World) (a : Activity) : World :=
  match a with
  | CallExecute n => execute n w
  | ThreadEnters => _execute_enter w
  end.

Definition run (acts : list Activity) (w : World) : World :=
  foldl act w acts.

(** What the compute thread emits from the point it has reached to its
    end. *)
Definition remainingEvents (t : Thread) (o : Outcome) : list Event :=
  let leave := match o with
               | Returned => [ComputeStatusChanged]
               | Raised e => [LogError e; ComputeStatusChanged]
               end in
  match t with
  | Spawned _ => ComputeStatusChanged :: leave
  | Executing _ => leave
  | Unstarted | Finished => []
  end.

(** ** Concrete states, for examples *)

(** The status file of [chunkA] at modification time 100, then 200, both
    times holding RUNNING. *)
Definition fsT1 : FileSystem := oneFile (statusFile chunkA) (Present 100 RUNNING).
Definition fsT2 : FileSystem := oneFile (statusFile chunkA) (Present 200 RUNNING).

(** A graph of two nodes with one chunk each. *)
Definition graphAB : Graph :=
  mkGraph [mkNode "A" [chunkA]; mkNode "B" [chunkB]] ∅ ∅.

(** The monitor watches [chunkA], whose status file did not exist when the
    watch list was set. *)
Definition watchingA : World :=
  match setChunks (fun _ => Missing) [chunkA] (set_sortedDFSChunks [chunkA] UIGraph_init) with
  | Ok w => w
  | Raise _ => UIGraph_init
  end.

(** [chunkA] then announces a change of status, its file being at time
    100. *)
Definition afterSelfReport : World :=
  match ChunksMonitor_onChunkStatusChanged fsT1 chunkA watchingA with
  | Ok w => w
  | Raise _ => watchingA
  end.

Definition plainOutput : Attribute := mkAttr "A.output" 0 [].
Definition listOutput : Attribute := mkAttr "A.outputs" 1 [].
Definition listInput : Attribute := mkAttr "B.inputs" 1 [].

(** A graph is installed and one edit is in the undo history. *)
Definition edited : World :=
  (push (K := exampleCollaborators) (AddEdgeCommand plainOutput (mkAttr "B.input" 0 []))
        (set_graph (Some graphAB) UIGraph_init)).2.

(** The compute thread of [edited] has been started. *)
Definition computing : World := execute None edited.

(** ** Further observations on the trace *)

Definition isConnect (c : NodeChunk) (e : Event) : bool :=
  bool_decide (e = StatusChangedConnected c).

Definition isDisconnect (c : NodeChunk) (e : Event) : bool :=
  bool_decide (e = StatusChangedDisconnected c).

Definition isListReplaced (e : Event) : bool :=
  bool_decide (e = ChunkStatusChanged None MinusOne).

Definition isLogError (e : Event) : bool :=
  match e with
  | LogError _ => true
  | _ => false
  end.

Definition isGraphDeleteLater (e : Event) : bool :=
  bool_decide (e = GraphDeleteLater).

(** Connections made so far from [chunk.statusChanged] to the slot of the
    monitor, and connections removed. *)
Definition connectCount (c : NodeChunk) (w : World) : nat :=
  countb (isConnect c) (trace w).

Definition disconnectCount (c : NodeChunk) (w : World) : nat :=
  countb (isDisconnect c) (trace w).

(** Emissions of [chunkStatusChanged(None, -1)] made so far. *)
Definition listReplacedCount (w : World) : nat :=
  countb isListReplaced (trace w).

Definition logErrorCount (w : World) : nat :=
  countb isLogError (trace w).

(** [chunk in self.lastModificationRecords] *)
Definition watched (c : NodeChunk) (w : World) : bool :=
  bool_decide (is_Some (lastModificationRecords w !! c)).

(** The slot of the monitor is connected once to every watched chunk and
    to no other chunk. *)
Definition connectionsBalanced (w : World) : Prop :=
  ∀ c, connectCount c w = (disconnectCount c w + delta (watched c w))%nat.

(** What a poll tick and the slots it reaches may append to the trace. *)
Definition monitorEvent (e : Event) : bool :=
  match e with
  | UpdateStatusFromCache _ | LogDebug _ _ | ChunkStatusChanged (Some _) _
  | ComputeStatusChanged => true
  | _ => false
  end.

(** The aggregated flags are what a scan of the sorted chunks gives. *)
Definition flagsUpToDate (w : World) : Prop :=
  _running w = anyStatus RUNNING w ∧ _submitted w = anyStatus SUBMITTED w.

(** Chunk [c] holds status [s] and one of the aggregated flags is set. *)
Definition statusReported (c : NodeChunk) (s : Status) (w : World) : Prop :=
  status w c = s ∧ (_running w || _submitted w) = true.

(** A collaborator that refuses every edge, and otherwise behaves as
    [exampleCollaborators]. *)
Definition rejectingCollaborators : Collaborators := {|
  updateStatusFromCache := updateStatusFromCache (Collaborators := exampleCollaborators);
  dfsOnFinish := dfsOnFinish (Collaborators := exampleCollaborators);
  getChunks := getChunks (Collaborators := exampleCollaborators);
  edgeAccepted g s d := false
|}.

(** ** The poll tick in an environment that can fail *)

(** The methods of the monitor above read the files in one state [fs] and
    call a refresh that returns.  Below, the same lines of the source run in
    an environment that is looked at anew at every call: [filesAt env k] is
    the state of the files at the moment of call number [k], and
    [refreshAt env k c s] is what [chunk.updateStatusFromCache()] does at
    that moment on chunk [c] with in-memory status [s]: it returns, or
    raises (the record cannot be opened or parsed). *)
Inductive RefreshOutcome :=
| Refreshed (s : Status) (announced : bool)
| RefreshRaises (e : Exception).

Record Environment := mkEnvironment {
  filesAt : nat -> FileSystem;
  refreshAt : nat -> NodeChunk -> Status -> RefreshOutcome
}.

(** A method that ran to its end at moment [k] in state [w], or raised [e]
    at moment [k], leaving the objects in state [w]. *)
Inductive Run :=
| Completed (k : nat) (w : World)
| Aborted (e : Exception) (k : nat) (w : World).

(** [getFileLastModTime] (lines 62-65): [os.path.exists] looks at the files
    at moment [k]; [os.path.getmtime] looks again, one moment later. *)
Definition getFileLastModTime_at (env : Environment) (f : string) (k : nat) : Result Z * nat :=
  if os_path_exists (filesAt env k) f
  then (os_path_getmtime (filesAt env (S k)) f, S (S k))
  else (Ok (-1), S k).

(** [ChunksMonitor.onChunkStatusChanged] (lines 54-60) *)
Definition ChunksMonitor_onChunkStatusChanged_at (env : Environment) (chunk : NodeChunk)
    (k : nat) (w : World) : Run :=
  if decide (is_Some (lastModificationRecords w !! chunk)) then
    match getFileLastModTime_at env (statusFile chunk) k with
    | (Ok t, k') =>
        let w' := set_records (<[chunk := t]> (lastModificationRecords w)) w in
        Completed k' (chunkStatusChanged_emit (Some chunk) (OfStatus (status w' chunk)) w')
    | (Raise e, k') => Aborted e k' w
    end
  else Aborted AssertionError k w.

(** [chunk.updateStatusFromCache()], with the slot it reaches. *)
Definition chunk_updateStatusFromCache_at (env : Environment) (chunk : NodeChunk)
    (k : nat) (w : World) : Run :=
  let w0 := emit (UpdateStatusFromCache chunk) w in
  match refreshAt env k chunk (status w chunk) with
  | RefreshRaises e => Aborted e (S k) w0
  | Refreshed s announced =>
      let w' := set_chunkStatus (<[chunk := s]> (chunkStatus w)) w0 in
      if announced then ChunksMonitor_onChunkStatusChanged_at env chunk (S k) w'
      else Completed (S k) w'
  end.

(** One iteration of the loop of [checkFileTimes] (lines 69-74): nothing
    catches what the calls raise. *)
Definition checkFileTimes_step_at (env : Environment) (k : nat) (w : World)
    (item : NodeChunk * Z) : Run :=
  let chunk := item.1 in
  let t := item.2 in
  match getFileLastModTime_at env (statusFile chunk) k with
  | (Raise e, k') => Aborted e k' w
  | (Ok lastMod, k') =>
      if decide (lastMod ≠ t) then
        match chunk_updateStatusFromCache_at env chunk k'
                (set_records (<[chunk := lastMod]> (lastModificationRecords w)) w) with
        | Completed k'' w' => Completed k'' (emit (LogDebug chunk (status w' chunk)) w')
        | Aborted e k'' w' => Aborted e k'' w'
        end
      else Completed k' w
  end.

(** The [for] loop: an exception ends it, and the items after the one that
    raised are not visited. *)
Fixpoint checkFileTimes_loop_at (env : Environment) (items : list (NodeChunk * Z))
    (k : nat) (w : World) : Run :=
  match items with
  | [] => Completed k w
  | item :: rest =>
      match checkFileTimes_step_at env k w item with
      | Completed k' w' => checkFileTimes_loop_at env rest k' w'
      | Aborted e k' w' => Aborted e k' w'
      end
  end.

(** [checkFileTimes] (lines 67-74) *)
Definition checkFileTimes_at (env : Environment) (k : nat) (w : World) : Run :=
  checkFileTimes_loop_at env (map_to_list (lastModificationRecords w)) k w.

(** The environment in which the files stay as [fs] and the refresh is the
    one of the collaborators, which returns. *)
Definition quietEnvironment {K : Collaborators} (fs : FileSystem) : Environment :=
  mkEnvironment (fun _ => fs)
                (fun _ c s => Refreshed (updateStatusFromCache fs c s).1
                                        (updateStatusFromCache fs c s).2).

(** ** Concrete states, continued *)

(** Both status files exist. *)
Definition fsBoth : FileSystem :=
  twoFiles (statusFile chunkA) (Present 100 RUNNING) (statusFile chunkB) (Present 7 SUCCESS).

(** The monitor watches [chunkA] and [chunkB], whose status files did not
    exist when the watch list was set. *)
Definition watchingAB : World :=
  match setChunks (fun _ => Missing) [chunkA; chunkB] UIGraph_init with
  | Ok w => w
  | Raise _ => UIGraph_init
  end.

(** The files stay as [fsBoth]; the record of [chunkA] can be examined but
    not opened, so its refresh raises. *)
Definition envCannotOpenA : Environment :=
  mkEnvironment (fun _ => fsBoth)
    (fun _ c s => if decide (c = chunkA) then RefreshRaises OSError
                  else Refreshed (updateStatusFromCache (Collaborators := exampleCollaborators)
                                    fsBoth c s).1
                                 (updateStatusFromCache (Collaborators := exampleCollaborators)
                                    fsBoth c s).2).

(** The status file of [chunkA] is there at the first look and gone from
    the second look on. *)
Definition envVanishingA : Environment :=
  mkEnvironment (fun k => match k with O => fsT1 | S _ => fun _ => Missing end)
    (fun _ c s => Refreshed (updateStatusFromCache (Collaborators := exampleCollaborators)
                               fsT1 c s).1
                            (updateStatusFromCache (Collaborators := exampleCollaborators)
                               fsT1 c s).2).






(** [clear()] is called on [computing], whose compute thread is alive. *)
Definition clearedWhileComputing : World := UIGraph_clear computing.

(** The status file of [chunkA] cannot be examined; that of [chunkB] is
    there. *)
Definition fsUnreadableA : FileSystem :=
  twoFiles (statusFile chunkA) Unreadable (statusFile chunkB) (Present 7 SUCCESS).

(** * Properties *)

(** ** Reading the change indicator *)

Lemma getFileLastModTime_indicator fs f :
  getFileLastModTime fs f = Ok (indicator fs f).
Proof.
  unfold getFileLastModTime, os_path_exists, os_path_getmtime, os_stat, indicator.
  by destruct (fs f).
Qed.

Lemma countb_snoc {A} (p : A -> bool) l e :
  countb p (l ++ [e]) = (countb p l + delta (p e))%nat.
Proof.
  unfold countb. rewrite List.filter_app, length_app. simpl.
  by destruct (p e).
Qed.

Lemma sameUIGraph_refl w : sameUIGraph w w.
Proof. by repeat split. Qed.

Lemma sameUIGraph_trans w1 w2 w3 :
  sameUIGraph w1 w2 → sameUIGraph w2 w3 → sameUIGraph w1 w3.
Proof. unfold sameUIGraph. intros (?&?&?&?&?) (?&?&?&?&?). repeat split; congruence. Qed.

Section MonitorFacts.
Context {K : Collaborators}.

(** The aggregation slot of UIGraph leaves the monitor and the chunks as
    they are, and emits nothing but [computeStatusChanged]. *)
Lemma UIGraph_onChunkStatusChanged_frame w :
  let w' := UIGraph_onChunkStatusChanged w in
  lastModificationRecords w' = lastModificationRecords w ∧
  chunkStatus w' = chunkStatus w ∧ sameUIGraph w w' ∧
  ∀ p, p ComputeStatusChanged = false → countb p (trace w') = countb p (trace w).
Proof.
  unfold UIGraph_onChunkStatusChanged.
  destruct (negb _ || negb _); simpl; repeat split; try done.
  intros p Hp. rewrite countb_snoc, Hp. simpl. lia.
Qed.

Lemma chunkStatusChanged_emit_frame c s w :
  let w' := chunkStatusChanged_emit c s w in
  lastModificationRecords w' = lastModificationRecords w ∧
  chunkStatus w' = chunkStatus w ∧ sameUIGraph w w' ∧
  ∀ p, p ComputeStatusChanged = false →
       countb p (trace w') = (countb p (trace w) + delta (p (ChunkStatusChanged c s)))%nat.
Proof.
  unfold chunkStatusChanged_emit.
  destruct (UIGraph_onChunkStatusChanged_frame (emit (ChunkStatusChanged c s) w))
    as (Hr & Hs & Hf & Hc).
  simpl in *. repeat split; try done; try apply Hf.
  intros p Hp. by rewrite Hc, countb_snoc.
Qed.

(** The slot of the monitor, when the sender is watched. *)
Lemma onChunkStatusChanged_watched fs c w :
  is_Some (lastModificationRecords w !! c) →
  ∃ w', ChunksMonitor_onChunkStatusChanged fs c w = Ok w' ∧
        lastModificationRecords w' =
          <[c := indicator fs (statusFile c)]> (lastModificationRecords w) ∧
        chunkStatus w' = chunkStatus w ∧ sameUIGraph w w' ∧
        (∀ c', refreshCount c' w' = refreshCount c' w) ∧
        (∀ c', notificationCount c' w' =
               (notificationCount c' w + delta (bool_decide (c = c')))%nat).
Proof.
  intros Hin. unfold ChunksMonitor_onChunkStatusChanged.
  rewrite decide_True by done. rewrite getFileLastModTime_indicator. simpl.
  eexists. split; [reflexivity|].
  match goal with |- context [chunkStatusChanged_emit ?a ?b ?x] =>
    destruct (chunkStatusChanged_emit_frame a b x) as (Hr & Hs & Hf & Hc) end.
  simpl in *. repeat split; try done; try apply Hf.
  - intros c'. unfold refreshCount. rewrite Hc by done. simpl.
    lia.
  - intros c'. unfold notificationCount. by rewrite Hc.
Qed.

End MonitorFacts.

Section MonitorTick.
Context {K : Collaborators}.

(** The refresh of a watched chunk. *)
Lemma chunk_updateStatusFromCache_watched fs c w :
  is_Some (lastModificationRecords w !! c) →
  ∃ w', chunk_updateStatusFromCache fs c w = Ok w' ∧
        lastModificationRecords w' =
          (if announces fs c (status w c)
           then <[c := indicator fs (statusFile c)]> (lastModificationRecords w)
           else lastModificationRecords w) ∧
        chunkStatus w' = <[c := (updateStatusFromCache fs c (status w c)).1]> (chunkStatus w) ∧
        sameUIGraph w w' ∧
        (∀ c', refreshCount c' w' = (refreshCount c' w + delta (bool_decide (c = c')))%nat) ∧
        (∀ c', notificationCount c' w' =
               (notificationCount c' w +
                delta (bool_decide (c = c') && announces fs c (status w c)))%nat).
Proof.
  intros Hin. unfold chunk_updateStatusFromCache, announces.
  set (r := updateStatusFromCache fs c (status w c)).
  set (w1 := set_chunkStatus _ _).
  assert (Hrc : ∀ c', refreshCount c' w1 = (refreshCount c' w + delta (bool_decide (c = c')))%nat).
  { intros c'. unfold refreshCount, w1. simpl. rewrite countb_snoc. f_equal.
    unfold isRefresh. do 2 case_bool_decide; naive_solver. }
  assert (Hnc : ∀ c', notificationCount c' w1 = notificationCount c' w).
  { intros c'. unfold notificationCount, w1. simpl. rewrite countb_snoc. simpl. lia. }
  destruct (r.2) eqn:Hann.
  - destruct (onChunkStatusChanged_watched fs c w1) as (w' & -> & Hr & Hs & Hf & Hc1 & Hc2);
      [done|].
    exists w'. split; [done|]. repeat split; try done; try apply Hf.
    + intros c'. by rewrite Hc1, Hrc.
    + intros c'. rewrite Hc2, Hnc. by rewrite andb_true_r.
  - exists w1. split; [done|]. repeat split; try done.
    intros c'. rewrite Hnc, andb_false_r. simpl. lia.
Qed.

(** One iteration of the loop of [checkFileTimes], on an item of a
    dictionary in which the chunk is a key. *)
Lemma checkFileTimes_step_spec fs c t w :
  is_Some (lastModificationRecords w !! c) →
  ∃ w', checkFileTimes_step fs w (c, t) = Ok w' ∧
        lastModificationRecords w' =
          (if changed fs c t
           then <[c := indicator fs (statusFile c)]> (lastModificationRecords w)
           else lastModificationRecords w) ∧
        chunkStatus w' =
          (if changed fs c t
           then <[c := (updateStatusFromCache fs c (status w c)).1]> (chunkStatus w)
           else chunkStatus w) ∧
        sameUIGraph w w' ∧
        (∀ c', refreshCount c' w' =
               (refreshCount c' w + delta (bool_decide (c = c') && changed fs c t))%nat) ∧
        (∀ c', notificationCount c' w' =
               (notificationCount c' w +
                delta (bool_decide (c = c') && changed fs c t && announces fs c (status w c)))%nat).
Proof.
  intros Hin. unfold checkFileTimes_step, changed. simpl.
  rewrite getFileLastModTime_indicator. simpl.
  set (ind := indicator fs (statusFile c)).
  destruct (decide (ind ≠ t)) as [Hne|Heq].
  - rewrite bool_decide_true by done.
    set (w1 := set_records _ w).
    destruct (chunk_updateStatusFromCache_watched fs c w1)
      as (w2 & -> & Hr & Hs & Hf & Hc1 & Hc2).
    { unfold w1. simpl. rewrite lookup_insert_eq. by eexists. }
    simpl. eexists. split; [reflexivity|]. simpl.
    change (status w1 c) with (status w c) in *.
    repeat split; try apply Hf.
    + rewrite Hr. unfold w1. simpl. fold ind.
      destruct (announces _ _ _); [|done]. by rewrite insert_insert_eq.
    + by rewrite Hs.
    + intros c'. unfold refreshCount in *. simpl. rewrite countb_snoc, Hc1. simpl.
      rewrite andb_true_r. unfold w1. simpl. lia.
    + intros c'. unfold notificationCount in *. simpl. rewrite countb_snoc, Hc2. simpl.
      rewrite andb_true_r. unfold w1. simpl. lia.
  - rewrite bool_decide_false by done.
    exists w. split; [done|]. repeat split; try done.
    + intros c'. rewrite andb_false_r. simpl. lia.
    + intros c'. rewrite andb_false_r. simpl. lia.
Qed.

Lemma checkFileTimes_step_untouched fs c t w w' c' :
  is_Some (lastModificationRecords w !! c) →
  checkFileTimes_step fs w (c, t) = Ok w' → c ≠ c' → untouched c' w w'.
Proof.
  intros Hin Hstep Hne.
  destruct (checkFileTimes_step_spec fs c t w Hin) as (w2 & Hw2 & Hr & Hs & _ & Hc1 & Hc2).
  rewrite Hstep in Hw2. injection Hw2 as <-.
  unfold untouched. rewrite Hr, Hs, Hc1, Hc2.
  rewrite bool_decide_false by done. simpl.
  repeat split; try lia; destruct (changed fs c t); by rewrite ?lookup_insert_ne.
Qed.

Lemma checkFileTimes_step_polled fs c t w w' :
  lastModificationRecords w !! c = Some t →
  checkFileTimes_step fs w (c, t) = Ok w' → polled fs c t w w'.
Proof.
  intros Hin Hstep.
  destruct (checkFileTimes_step_spec fs c t w) as (w2 & Hw2 & Hr & Hs & _ & Hc1 & Hc2);
    [by eexists|].
  rewrite Hstep in Hw2. injection Hw2 as <-.
  unfold polled, status. rewrite Hr, Hs, Hc1, Hc2.
  rewrite bool_decide_true by done. simpl.
  unfold changed in *. case_bool_decide as Hch; simpl.
  - rewrite !lookup_insert_eq. done.
  - rewrite Hin, Hch. repeat split; lia.
Qed.

Lemma untouched_trans c w1 w2 w3 :
  untouched c w1 w2 → untouched c w2 w3 → untouched c w1 w3.
Proof. unfold untouched. intros (?&?&?&?) (?&?&?&?). repeat split; congruence. Qed.

Lemma untouched_status c w w' : untouched c w w' → status w' c = status w c.
Proof. unfold untouched, status. by intros (_ & -> & _). Qed.

Lemma polled_then_untouched fs c t w1 w2 w3 :
  polled fs c t w1 w2 → untouched c w2 w3 → polled fs c t w1 w3.
Proof.
  intros (H1 & H2 & H3 & H4) Hu. pose proof (untouched_status _ _ _ Hu) as Hs.
  destruct Hu as (U1 & U2 & U3 & U4).
  unfold polled. rewrite U1, Hs, U3, U4. done.
Qed.

Lemma untouched_then_polled fs c t w1 w2 w3 :
  untouched c w1 w2 → polled fs c t w2 w3 → polled fs c t w1 w3.
Proof.
  intros Hu (H1 & H2 & H3 & H4). pose proof (untouched_status _ _ _ Hu) as Hs.
  destruct Hu as (U1 & U2 & U3 & U4).
  unfold polled. rewrite <- Hs, <- U3, <- U4. done.
Qed.

(** The loop of [checkFileTimes] over the items of a dictionary: it runs to
    its end, every item is polled and no other chunk is touched. *)
Lemma checkFileTimes_items fs (items : list (NodeChunk * Z)) :
  NoDup items.*1 →
  ∀ w, (∀ c t, (c, t) ∈ items → lastModificationRecords w !! c = Some t) →
  ∃ w', foldM (checkFileTimes_step fs) items w = Ok w' ∧ sameUIGraph w w' ∧
        (∀ c, c ∉ items.*1 → untouched c w w') ∧
        (∀ c t, (c, t) ∈ items → polled fs c t w w').
Proof.
  induction items as [|[c0 t0] items IH]; intros Hnd w Hitems.
  - exists w. split; [done|]. split; [apply sameUIGraph_refl|].
    split; [by intros c _ | intros c t Hin; by apply elem_of_nil in Hin].
  - apply NoDup_cons in Hnd as [Hc0 Hnd]. simpl in Hc0.
    assert (Hw0 : lastModificationRecords w !! c0 = Some t0) by (apply Hitems; left).
    destruct (checkFileTimes_step_spec fs c0 t0 w) as (w1 & Hstep & _ & _ & Hf1 & _);
      [by eexists|].
    assert (Hother : ∀ c, c0 ≠ c → untouched c w w1).
    { intros c Hne. eapply checkFileTimes_step_untouched; [by eexists|done..]. }
    destruct (IH Hnd w1) as (w' & Hfold & Hf2 & Hout & Hin).
    { intros c t Hct. destruct (Hother c) as (-> & _).
      - intros <-. apply Hc0. apply list_elem_of_fmap. by exists (c0, t).
      - apply Hitems. by right. }
    exists w'. simpl. rewrite Hstep. simpl. split; [done|].
    split; [by eapply sameUIGraph_trans|]. split.
    + intros c Hc. apply not_elem_of_cons in Hc as [Hne Hc].
      eapply untouched_trans; [apply Hother; done | by apply Hout].
    + intros c t Hct. apply elem_of_cons in Hct as [[= -> ->]|Hct].
      * eapply polled_then_untouched; [|by apply Hout].
        by eapply checkFileTimes_step_polled.
      * eapply untouched_then_polled; [|by apply Hin].
        apply Hother. intros <-. apply Hc0. apply list_elem_of_fmap. by exists (c0, t).
Qed.

(** A poll tick, for any state of the monitor and of the file system. *)
Lemma checkFileTimes_spec fs w :
  ∃ w', checkFileTimes fs w = Ok w' ∧ sameUIGraph w w' ∧
        (∀ c, lastModificationRecords w !! c = None → untouched c w w') ∧
        (∀ c t, lastModificationRecords w !! c = Some t → polled fs c t w w').
Proof.
  destruct (checkFileTimes_items fs (map_to_list (lastModificationRecords w))
              (NoDup_fst_map_to_list _) w) as (w' & Hrun & Hf & Hout & Hin).
  { intros c t. by rewrite elem_of_map_to_list. }
  exists w'. split; [done|]. split; [done|]. split.
  - intros c Hc. apply Hout. intros ([c' t] & -> & Hct)%list_elem_of_fmap.
    apply elem_of_map_to_list in Hct. simpl in Hc. congruence.
  - intros c t Hct. apply Hin. by apply elem_of_map_to_list.
Qed.

Lemma checkFileTimes_step_same fs c t w :
  indicator fs (statusFile c) = t → checkFileTimes_step fs w (c, t) = Ok w.
Proof.
  intros Heq. unfold checkFileTimes_step. cbn [fst snd].
  rewrite getFileLastModTime_indicator. cbn [mbind Result_bind].
  by rewrite decide_False by (intros Hne; by apply Hne).
Qed.

(** A poll tick at which every stored value is the current indicator
    leaves everything as it was. *)
Lemma checkFileTimes_quiet fs w :
  (∀ c t, lastModificationRecords w !! c = Some t → indicator fs (statusFile c) = t) →
  checkFileTimes fs w = Ok w.
Proof.
  intros Hsame. unfold checkFileTimes.
  assert (Hitems : ∀ c t, (c, t) ∈ map_to_list (lastModificationRecords w) →
                          indicator fs (statusFile c) = t).
  { intros c t Hin. apply Hsame. by apply elem_of_map_to_list. }
  revert Hitems. generalize (map_to_list (lastModificationRecords w)) as items.
  induction items as [|[c t] items IH]; intros Hitems; [done|].
  cbn [foldM]. rewrite checkFileTimes_step_same by (apply Hitems; left).
  apply IH. intros c' t' Hin. apply Hitems. by right.
Qed.

End MonitorTick.

(** ** Claims on ChunksMonitor *)

Section MonitorClaims.
Context {K : Collaborators}.

(** C2, amended.  Over the indicator sequence absent, T1, T1, T2 of a
    watched chunk, the three poll ticks run to their end; the first and the
    third register a change (the stored value is updated and the chunk is
    refreshed from its record), the second registers none and emits
    nothing for the chunk.  [checkFileTimes] emits no notification of its
    own: [chunkStatusChanged] is emitted for the chunk at a registered
    change exactly when the refresh makes the chunk announce a change of
    status.  Time alone changes nothing: a tick at which every stored value
    is the current indicator leaves the whole state as it was. *)
Theorem checkFileTimes_absent_T1_T1_T2 (fs1 fs2 fs3 : FileSystem) (w : World)
    (c : NodeChunk) (T1 T2 : Z) :
  lastModificationRecords w !! c = Some (-1) →
  indicator fs1 (statusFile c) = T1 →
  indicator fs2 (statusFile c) = T1 →
  indicator fs3 (statusFile c) = T2 →
  T1 ≠ -1 → T2 ≠ T1 →
  ∃ w1 w2 w3,
    checkFileTimes fs1 w = Ok w1 ∧ checkFileTimes fs2 w1 = Ok w2 ∧
    checkFileTimes fs3 w2 = Ok w3 ∧
    lastModificationRecords w1 !! c = Some T1 ∧
    lastModificationRecords w2 !! c = Some T1 ∧
    lastModificationRecords w3 !! c = Some T2 ∧
    refreshCount c w1 = S (refreshCount c w) ∧
    refreshCount c w2 = refreshCount c w1 ∧
    refreshCount c w3 = S (refreshCount c w2) ∧
    notificationCount c w1 =
      (notificationCount c w + delta (announces fs1 c (status w c)))%nat ∧
    notificationCount c w2 = notificationCount c w1 ∧
    notificationCount c w3 =
      (notificationCount c w2 + delta (announces fs3 c (status w2 c)))%nat ∧
    (∀ fs' w0, (∀ c' t', lastModificationRecords w0 !! c' = Some t' →
                         indicator fs' (statusFile c') = t') →
               checkFileTimes fs' w0 = Ok w0).
Proof.
  intros Hw H1 H2 H3 Habs Hne.
  destruct (checkFileTimes_spec fs1 w) as (w1 & Hrun1 & _ & _ & Hin1).
  destruct (Hin1 c _ Hw) as (Hr1 & _ & Hc1 & Hn1).
  rewrite H1 in Hr1.
  destruct (checkFileTimes_spec fs2 w1) as (w2 & Hrun2 & _ & _ & Hin2).
  destruct (Hin2 c _ Hr1) as (Hr2 & _ & Hc2 & Hn2).
  rewrite H2 in Hr2.
  destruct (checkFileTimes_spec fs3 w2) as (w3 & Hrun3 & _ & _ & Hin3).
  destruct (Hin3 c _ Hr2) as (Hr3 & _ & Hc3 & Hn3).
  rewrite H3 in Hr3.
  assert (changed fs1 c (-1) = true) as E1
    by (unfold changed; rewrite H1; by apply bool_decide_eq_true).
  assert (changed fs2 c T1 = false) as E2
    by (unfold changed; rewrite H2; by apply bool_decide_eq_false; intros []).
  assert (changed fs3 c T1 = true) as E3
    by (unfold changed; rewrite H3; by apply bool_decide_eq_true).
  rewrite E1 in Hc1, Hn1. rewrite E2 in Hc2, Hn2. rewrite E3 in Hc3, Hn3.
  simpl in *.
  exists w1, w2, w3.
  split; [done|]. split; [done|]. split; [done|]. split; [done|]. split; [done|].
  split; [done|]. split; [lia|]. split; [lia|]. split; [lia|]. split; [done|].
  split; [lia|]. split; [done|]. apply checkFileTimes_quiet.
Qed.

(** C5.  Once the slot of the monitor has handled a change announced by a
    watched chunk, the stored value is the current indicator of its record,
    and poll ticks at which the indicator is still that value, however many
    follow, neither refresh the chunk nor emit a notification for it. *)
Theorem onChunkStatusChanged_then_ticks_are_quiet (fs : FileSystem) (c : NodeChunk)
    (w w1 : World) (fss : list FileSystem) :
  ChunksMonitor_onChunkStatusChanged fs c w = Ok w1 →
  Forall (fun fs' => indicator fs' (statusFile c) = indicator fs (statusFile c)) fss →
  lastModificationRecords w1 !! c = Some (indicator fs (statusFile c)) ∧
  ∃ w2, ticks fss w1 = Ok w2 ∧
        lastModificationRecords w2 !! c = Some (indicator fs (statusFile c)) ∧
        refreshCount c w2 = refreshCount c w1 ∧
        notificationCount c w2 = notificationCount c w1.
Proof.
  intros Hslot Hfss.
  assert (Hr1 : lastModificationRecords w1 !! c = Some (indicator fs (statusFile c))).
  { unfold ChunksMonitor_onChunkStatusChanged in Hslot.
    destruct (decide _) as [Hin|]; [|done].
    destruct (onChunkStatusChanged_watched fs c w Hin) as (w' & Hw' & Hr & _).
    unfold ChunksMonitor_onChunkStatusChanged in Hw'. rewrite decide_True in Hw' by done.
    rewrite Hslot in Hw'. injection Hw' as <-. rewrite Hr. apply lookup_insert_eq. }
  split; [done|]. clear Hslot. revert w1 Hr1.
  induction Hfss as [|fs' fss Hfs' _ IH]; intros w1 Hr1.
  - exists w1. by repeat split.
  - destruct (checkFileTimes_spec fs' w1) as (w' & Hrun & _ & _ & Hin).
    destruct (Hin c _ Hr1) as (Hr & _ & Hc & Hn).
    assert (changed fs' c (indicator fs (statusFile c)) = false) as E
      by (unfold changed; rewrite Hfs'; by apply bool_decide_eq_false; intros []).
    rewrite E in Hc, Hn. simpl in Hc, Hn. rewrite Hfs' in Hr.
    destruct (IH w' Hr) as (w2 & Hticks & Hr2 & Hc2 & Hn2).
    exists w2. unfold ticks in *. simpl. rewrite Hrun. simpl.
    repeat split; try done; lia.
Qed.

(** C9.  The slot of the monitor completes when the sender is a key of the
    stored records: it stores the current indicator and emits one
    notification for the sender.  When the sender is not a key, it raises
    an assertion error. *)
Theorem onChunkStatusChanged_requires_watched (fs : FileSystem) (c : NodeChunk) (w : World) :
  (is_Some (lastModificationRecords w !! c) →
   ∃ w', ChunksMonitor_onChunkStatusChanged fs c w = Ok w' ∧
         lastModificationRecords w' !! c = Some (indicator fs (statusFile c)) ∧
         notificationCount c w' = S (notificationCount c w)) ∧
  (lastModificationRecords w !! c = None →
   ChunksMonitor_onChunkStatusChanged fs c w = Raise AssertionError).
Proof.
  split.
  - intros Hin.
    destruct (onChunkStatusChanged_watched fs c w Hin) as (w' & Hw' & Hr & _ & _ & _ & Hn).
    exists w'. split; [done|]. rewrite Hr, Hn, lookup_insert_eq.
    rewrite bool_decide_true by done. simpl. split; [done|lia].
  - intros Hout. unfold ChunksMonitor_onChunkStatusChanged.
    rewrite decide_False; [done|]. rewrite Hout. by intros [? ?].
Qed.

End MonitorClaims.

(** ** Claims on the computation state of UIGraph *)

Lemma anyStatus_true (s : Status) (w : World) :
  anyStatus s w = true ↔ ∃ ch, ch ∈ _sortedDFSChunks w ∧ status w ch = s.
Proof.
  unfold anyStatus. rewrite existsb_exists. split.
  - intros (ch & Hin & Hst). exists ch.
    split; [by apply list_elem_of_In | by apply bool_decide_eq_true in Hst].
  - intros (ch & Hin & Hst). exists ch.
    split; [by apply list_elem_of_In | by apply bool_decide_eq_true].
Qed.

(** After the aggregation slot ran, the flags are what the scan of the
    sorted chunks gives. *)
Lemma UIGraph_onChunkStatusChanged_flags (w : World) :
  let w' := UIGraph_onChunkStatusChanged w in
  _running w' = anyStatus RUNNING w' ∧ _submitted w' = anyStatus SUBMITTED w'.
Proof.
  unfold UIGraph_onChunkStatusChanged.
  destruct (negb (eqb (_running w) (anyStatus RUNNING w)) ||
            negb (eqb (_submitted w) (anyStatus SUBMITTED w))) eqn:Hc.
  - by split.
  - apply orb_false_elim in Hc as [Hr Hs].
    apply negb_false_iff, eqb_prop in Hr. apply negb_false_iff, eqb_prop in Hs.
    by split.
Qed.

(** ** Claims on the execution life cycle *)

(** Calls of [execute] and the entry of the compute thread into
    [_execute] keep the thread alive and start no other. *)
Lemma run_keeps_thread (acts : list Activity) (w : World) :
  isComputingLocally w = true →
  isComputingLocally (run acts w) = true ∧
  threadStartCount (run acts w) = threadStartCount w ∧
  computeStatusChangedCount (run acts w) =
    (computeStatusChangedCount w +
     match _computeThread w with
     | Spawned _ => delta (bool_decide (ThreadEnters ∈ acts))
     | _ => 0
     end)%nat.
Proof.
  revert w. induction acts as [|a acts IH]; intros w Hl.
  - simpl. repeat split; try done. destruct (_computeThread w); simpl; lia.
  - unfold run in *. simpl. destruct a as [n|]; simpl.
    + unfold execute, isComputing. rewrite Hl. simpl.
      destruct (IH w Hl) as (H1 & H2 & H3). repeat split; try done.
      rewrite H3. destruct (_computeThread w); try done.
      f_equal. f_equal. apply bool_decide_ext. rewrite elem_of_cons.
      split; [by right | by intros [?|?]].
    + unfold isComputingLocally in Hl. unfold _execute_enter.
      destruct (_computeThread w) as [|ns|ns|] eqn:Ht; try done.
      * destruct (IH (emit ComputeStatusChanged (set_computeThread (Executing ns) w)))
          as (H1 & H2 & H3); [done|].
        repeat split; try done.
        -- rewrite H2. unfold threadStartCount. simpl. rewrite countb_snoc. simpl. lia.
        -- rewrite H3.
           unfold computeStatusChangedCount. simpl. rewrite countb_snoc. simpl. lia.
      * destruct (IH w) as (H1 & H2 & H3); [unfold isComputingLocally; by rewrite Ht|].
        rewrite Ht in H3. repeat split; try done.
Qed.

(** C6.  While a computation is in progress, on a local thread or as seen
    through the aggregated flags, [execute] changes nothing: no thread is
    started and nothing is emitted.  From a state in which nothing is being
    computed, [execute] starts one thread; whatever further calls of
    [execute] are made before that thread ends, it stays the only one
    started, and [computeStatusChanged] is emitted once, when it enters
    [_execute]. *)
Theorem execute_noop_while_computing (n : option Node) (w : World) :
  (isComputingLocally w = true ∨ isComputingExternally w = true → execute n w = w) ∧
  (isComputing w = false →
   ∀ acts, let w' := run acts (execute n w) in
     isComputingLocally w' = true ∧
     threadStartCount w' = S (threadStartCount w) ∧
     computeStatusChangedCount w' =
       (computeStatusChangedCount w + delta (bool_decide (ThreadEnters ∈ acts)))%nat).
Proof.
  split.
  - intros Hc. unfold execute, isComputing.
    destruct Hc as [-> | ->]; [done | by rewrite orb_true_r].
  - intros Hc acts. unfold execute. rewrite Hc.
    set (nodes := match n with Some x => Some [x] | None => None end).
    set (w1 := emit _ _).
    destruct (run_keeps_thread acts w1) as (H1 & H2 & H3); [done|].
    simpl. repeat split; try done.
    + rewrite H2. unfold threadStartCount, w1. simpl. rewrite countb_snoc. simpl. lia.
    + rewrite H3. unfold computeStatusChangedCount, w1. simpl. rewrite countb_snoc. simpl. lia.
Qed.

(** On an installed graph [stopExecution] returns. *)
Lemma stopExecution_returns (o : Outcome) (w : World) :
  is_Some (_graph w) → ∃ w', stopExecution o w = Ok w'.
Proof.
  intros [g Hg]. unfold stopExecution. rewrite Hg.
  destruct (negb (isComputingLocally w)); by eexists.
Qed.

(** X18.  Without a live compute thread [stopExecution] changes nothing.
    With one, on an installed graph, it asks the graph to stop, waits until the
    thread has run to its end and been joined, and only then emits
    [computeStatusChanged]; no thread is alive afterwards. *)
Theorem stopExecution_spec (o : Outcome) (w : World) :
  (isComputingLocally w = false → stopExecution o w = Ok w) ∧
  (isComputingLocally w = true → is_Some (_graph w) →
   ∃ w', stopExecution o w = Ok w' ∧
         trace w' = trace w ++ [GraphStopExecution] ++ remainingEvents (_computeThread w) o
                            ++ [ThreadJoin; ComputeStatusChanged] ∧
         _computeThread w' = Finished ∧
         isComputingLocally w' = false).
Proof.
  unfold stopExecution. split.
  - by intros ->.
  - intros Hl [g Hg]. rewrite Hl, Hg. simpl. eexists. split; [reflexivity|].
    unfold Thread_join, _execute_leave, _execute_enter, isComputingLocally in *.
    unfold remainingEvents.
    destruct (_computeThread w) eqn:Ht; try done; destruct o; simpl;
      repeat (rewrite Ht; simpl); rewrite <- ?app_assoc; done.
Qed.


(** ** Claims on the watch list and the installed graph *)

Lemma ChunksMonitor_clear_spec (w : World) :
  let w' := ChunksMonitor_clear w in
  lastModificationRecords w' = ∅ ∧ chunkStatus w' = chunkStatus w ∧ sameUIGraph w w'.
Proof.
  unfold ChunksMonitor_clear.
  generalize (map fst (map_to_list (lastModificationRecords w))). intros l.
  assert (H : ∀ w0, chunkStatus (foldl (fun w ch => emit (StatusChangedDisconnected ch) w) w0 l)
                    = chunkStatus w0 ∧
                    sameUIGraph w0 (foldl (fun w ch => emit (StatusChangedDisconnected ch) w) w0 l)).
  { induction l as [|c l IH]; intros w0; simpl; [split; [done | apply sameUIGraph_refl]|].
    destruct (IH (emit (StatusChangedDisconnected c) w0)) as [H1 H2]. split; [done|].
    eapply sameUIGraph_trans; [|exact H2]. by repeat split. }
  destruct (H w) as [H1 H2]. simpl. repeat split; try done; apply H2.
Qed.

Lemma setChunks_step_eq (fs : FileSystem) (w : World) (c : NodeChunk) :
  setChunks_step fs w c =
  Ok (emit (StatusChangedConnected c)
           (set_records (<[c := indicator fs (statusFile c)]> (lastModificationRecords w)) w)).
Proof. unfold setChunks_step. by rewrite getFileLastModTime_indicator. Qed.

Lemma setChunks_steps (fs : FileSystem) (chunks : list NodeChunk) (w : World) :
  ∃ w', foldM (setChunks_step fs) chunks w = Ok w' ∧ sameUIGraph w w' ∧
        chunkStatus w' = chunkStatus w ∧
        ∀ c, lastModificationRecords w' !! c =
             if decide (c ∈ chunks) then Some (indicator fs (statusFile c))
             else lastModificationRecords w !! c.
Proof.
  revert w. induction chunks as [|c0 chunks IH]; intros w.
  - exists w. split; [done|]. split; [apply sameUIGraph_refl|]. split; [done|].
    intros c. rewrite decide_False; [done | apply not_elem_of_nil].
  - cbn [foldM]. rewrite setChunks_step_eq. simpl.
    set (w1 := emit _ _).
    destruct (IH w1) as (w' & -> & Hf & Hs & Hr).
    exists w'. split; [done|]. split; [|split; [done|]].
    + eapply sameUIGraph_trans; [|exact Hf]. by repeat split.
    + intros c. rewrite Hr. unfold w1. simpl.
      destruct (decide (c ∈ chunks)) as [Hin|Hin].
      * rewrite decide_True; [done | by right].
      * destruct (decide (c = c0)) as [->|Hne].
        -- rewrite decide_True by left. apply lookup_insert_eq.
        -- rewrite decide_False by (rewrite elem_of_cons; by intros [?|?]).
           by apply lookup_insert_ne.
Qed.

(** [setChunks] always completes: the monitor then watches exactly the
    given chunks, each with its current indicator. *)
Lemma setChunks_spec (fs : FileSystem) (chunks : list NodeChunk) (w : World) :
  ∃ w', setChunks fs chunks w = Ok w' ∧ sameUIGraph w w' ∧
        ∀ c, lastModificationRecords w' !! c =
             if decide (c ∈ chunks) then Some (indicator fs (statusFile c)) else None.
Proof.
  unfold setChunks.
  destruct (ChunksMonitor_clear_spec w) as (Hr0 & _ & Hf0).
  destruct (setChunks_steps fs chunks (ChunksMonitor_clear w)) as (w1 & -> & Hf1 & _ & Hr1).
  simpl. eexists. split; [reflexivity|].
  destruct (chunkStatusChanged_emit_frame None MinusOne w1) as (Hr2 & _ & Hf2 & _).
  simpl in *. split.
  - eapply sameUIGraph_trans; [exact Hf0|]. eapply sameUIGraph_trans; [exact Hf1 | exact Hf2].
  - intros c. rewrite Hr2, Hr1. by destruct (decide _).
Qed.

Section Topology.
Context {K : Collaborators}.

(** [updateChunks] on an installed graph completes and leaves its chunks,
    in traversal order, as the sorted list. *)
Lemma updateChunks_spec (fs : FileSystem) (w : World) (g : Graph) :
  _graph w = Some g →
  ∃ w', updateChunks fs w = Ok w' ∧
        _sortedDFSChunks w' = getChunks g (dfsOnFinish g) ∧
        _graph w' = Some g ∧ _undoStack w' = _undoStack w ∧
        _computeThread w' = _computeThread w.
Proof.
  intros Hg. unfold updateChunks. rewrite Hg.
  destruct (decide _) as [Heq|Hne].
  - exists w. by repeat split.
  - simpl.
    destruct (setChunks_spec fs (getChunks g (dfsOnFinish g))
                (set_sortedDFSChunks (getChunks g (dfsOnFinish g)) w))
      as (w' & -> & (Hu & Hg' & _ & Ht & Hs) & _).
    exists w'. simpl in *. repeat split; congruence.
Qed.

(** C8.  On an installed graph, [updateChunks] changes nothing when the
    chunks of the graph in traversal order are the sorted list already
    installed: the watch list of the monitor is not replaced.  Otherwise it
    installs the new list and hands it to the monitor through [setChunks],
    which then watches exactly these chunks.  A second recompute right after
    the first one changes nothing. *)
Theorem updateChunks_idempotent (fs : FileSystem) (w : World) (g : Graph) :
  _graph w = Some g →
  let chunks := getChunks g (dfsOnFinish g) in
  (_sortedDFSChunks w = chunks → updateChunks fs w = Ok w) ∧
  (_sortedDFSChunks w ≠ chunks →
   updateChunks fs w = setChunks fs chunks (set_sortedDFSChunks chunks w) ∧
   ∃ w', updateChunks fs w = Ok w' ∧ _sortedDFSChunks w' = chunks ∧
         ∀ c, lastModificationRecords w' !! c =
              if decide (c ∈ chunks) then Some (indicator fs (statusFile c)) else None) ∧
  (∀ w', updateChunks fs w = Ok w' → ∀ fs', updateChunks fs' w' = Ok w').
Proof.
  intros Hg chunks. split; [|split].
  - intros Heq. unfold updateChunks. rewrite Hg. by rewrite decide_True.
  - intros Hne. unfold updateChunks. rewrite Hg. fold chunks.
    rewrite decide_False by done. simpl. split; [done|].
    destruct (setChunks_spec fs chunks (set_sortedDFSChunks chunks w))
      as (w' & -> & (_ & _ & _ & _ & Hs) & Hr).
    exists w'. by repeat split.
  - intros w' Hw' fs'.
    destruct (updateChunks_spec fs w g Hg) as (w2 & Hw2 & Hs & Hg' & _).
    rewrite Hw' in Hw2. injection Hw2 as <-.
    unfold updateChunks. rewrite Hg'. by rewrite decide_True.
Qed.

(** C10.  When a graph is installed, [setGraph] stops the local execution,
    then clears the sorted chunk list and the undo history, and only then
    installs the new graph.  When it returns, the new graph is installed
    with its own chunks as sorted list and the undo history is empty:
    nothing can be undone or redone. *)
Theorem setGraph_clears_history (fs : FileSystem) (o : Outcome) (g g0 : Graph) (w : World) :
  _graph w = Some g0 →
  ∃ ws w',
    stopExecution o w = Ok ws ∧
    _graph (UIGraph_clear ws) = None ∧
    _sortedDFSChunks (UIGraph_clear ws) = [] ∧
    _undoStack (UIGraph_clear ws) = emptyUndoStack ∧
    setGraph fs o g w =
      (w3 ← onGraphUpdated fs (emit GraphUpdatedConnected
                                 (set_graph (Some g) (UIGraph_clear ws)));
       Ok (emit GraphChanged w3)) ∧
    setGraph fs o g w = Ok w' ∧
    _graph w' = Some g ∧
    _sortedDFSChunks w' = getChunks g (dfsOnFinish g) ∧
    _undoStack w' = emptyUndoStack ∧
    canUndo w' = false ∧ canRedo w' = false ∧ undo w' = w' ∧ redo w' = w'.
Proof.
  intros Hg.
  assert (Hstop : ∃ ws, stopExecution o w = Ok ws).
  { apply stopExecution_returns. by eexists. }
  destruct Hstop as (ws & Hws).
  set (wc := UIGraph_clear ws).
  assert (Hc : _graph wc = None ∧ _sortedDFSChunks wc = [] ∧ _undoStack wc = emptyUndoStack).
  { unfold wc, UIGraph_clear. destruct (_graph ws) eqn:E; simpl; rewrite ?E; auto. }
  destruct Hc as (Hc1 & Hc2 & Hc3).
  assert (Hset : setGraph fs o g w =
                 (w3 ← onGraphUpdated fs (emit GraphUpdatedConnected (set_graph (Some g) wc));
                  Ok (emit GraphChanged w3))).
  { unfold setGraph. rewrite Hg, Hws. done. }
  destruct (updateChunks_spec fs (emit GraphUpdatedConnected (set_graph (Some g) wc)) g)
    as (w3 & Hw3 & Hs3 & Hg3 & Hu3 & _); [done|].
  exists ws, (emit GraphChanged w3).
  assert (Hu : _undoStack (emit GraphChanged w3) = emptyUndoStack).
  { simpl. rewrite Hu3. simpl. exact Hc3. }
  repeat split; try done.
  - rewrite Hset. unfold onGraphUpdated. by rewrite Hw3.
  - unfold canUndo. rewrite Hu. by apply bool_decide_eq_false; intros [_ ?].
  - unfold canRedo. rewrite Hu. by apply bool_decide_eq_false; intros [_ ?].
  - unfold undo. by rewrite Hu.
  - unfold redo. by rewrite Hu.
Qed.

End Topology.

(** ** Claims on composite edits *)

Section Edits.
Context {K : Collaborators}.

Lemma tryAndPush_accepted (c : Command) (w : World) (g : Graph) :
  _graph w = Some g → accepts g c = true →
  tryAndPush c w =
  (true, set_undoStack (record c (_undoStack w)) (set_graph (Some (redoImpl c g)) w)).
Proof. intros Hg Hc. unfold tryAndPush. by rewrite Hg, Hc. Qed.

(** C3, amended.  When [dst] is a list attribute and [src] is not, on an
    installed graph that accepts the edge and outside any open macro,
    [addEdge] appends one element to [dst] and connects [src] to that new
    last element; both commands form one macro of the undo history, which
    [undo] reverts as a whole (the element and its edge are gone) and
    [redo] reapplies as a whole. *)
Theorem addEdge_into_list (src dst : Attribute) (w : World) (g : Graph) :
  _graph w = Some g →
  macroDepth (_undoStack w) = 0%nat →
  isListAttribute dst = true →
  isListAttribute src = false →
  let new := element dst (listSize g dst) in
  let append := ListAttributeAppendCommand dst PyNone in
  edgeAccepted (redoImpl append g) src new = true →
  ∃ w' g' gu,
    addEdge src dst w = Ok w' ∧ _graph w' = Some g' ∧
    listSize g' dst = S (listSize g dst) ∧
    at_last dst w' = Ok new ∧
    edges g' !! new = Some src ∧
    _undoStack w' =
      mkUndoStack (Macro ("Insert and Add Edge on " +:+ fullName dst)
                         [append; AddEdgeCommand src new] :: history (_undoStack w))
                  [] 0 "" [] ∧
    _graph (undo w') = Some gu ∧
    listSize gu dst = listSize g dst ∧
    edges gu !! new = None ∧
    history (_undoStack (undo w')) = history (_undoStack w) ∧
    redo (undo w') = w'.
Proof.
  intros Hg Hd Hdst Hsrc new append Hacc.
  assert (Hsz : listSize (redoImpl append g) dst = S (listSize g dst)).
  { unfold listSize at 1. simpl. by rewrite lookup_insert_eq. }
  unfold addEdge. rewrite Hdst, Hsrc. cbn [andb negb].
  set (title := ("Insert and Add Edge on " +:+ fullName dst)%string).
  unfold groupedGraphModification. cbv beta zeta.
  set (w1 := set_undoStack (beginMacro title (_undoStack w)) w).
  unfold appendAttribute, push. cbv beta iota zeta. fold append.
  rewrite (tryAndPush_accepted append w1 g) by done. cbn [snd].
  set (w2 := set_undoStack _ _).
  assert (Hlast : at_last dst w2 = Ok new).
  { unfold at_last. change (_graph w2) with (Some (redoImpl append g)).
    cbv beta iota. by rewrite Hsz. }
  rewrite Hlast. cbn [mbind Result_bind].
  rewrite (tryAndPush_accepted (AddEdgeCommand src new) w2 (redoImpl append g)) by done.
  cbn [snd].
  set (g' := redoImpl (AddEdgeCommand src new) (redoImpl append g)).
  assert (Hsz' : listSize g' dst = S (listSize g dst)) by exact Hsz.
  assert (Hu : endMacro (record (AddEdgeCommand src new) (_undoStack w2)) =
               Ok (mkUndoStack (Macro title [append; AddEdgeCommand src new]
                                  :: history (_undoStack w)) [] 0 "" [])).
  { unfold w2, w1, beginMacro. simpl. by rewrite Hd. }
  change (_undoStack (set_undoStack ?u _)) with u. rewrite Hu. cbn [mbind Result_bind].
  set (w' := set_undoStack _ _).
  set (gu := undoEntry (Macro title [append; AddEdgeCommand src new]) g').
  exists w', g', gu.
  assert (Hgu : listSize gu dst = listSize g dst).
  { unfold gu, undoEntry, listSize at 1. simpl. rewrite lookup_insert_eq. simpl.
    unfold listSize at 1. simpl. by rewrite lookup_insert_eq. }
  split; [done|]. split; [done|]. split; [done|].
  split. { unfold at_last. change (_graph w') with (Some g'). cbv beta iota. by rewrite Hsz'. }
  split. { unfold g'. simpl. by rewrite lookup_insert_eq. }
  split; [done|]. split; [done|]. split; [done|].
  split. { unfold gu, undoEntry. simpl. by rewrite lookup_delete_eq. }
  split; [done|].
  unfold redo, undo, w'. simpl.
  unfold set_undoStack, set_graph. simpl. f_equal. f_equal.
  unfold redoEntry, undoEntry. simpl. unfold listSize. simpl.
  rewrite !lookup_insert_eq. simpl.
  rewrite !insert_insert_eq, insert_delete_eq, insert_insert_eq. done.
Qed.

End Edits.

(** ** The claims at concrete states *)

(** C2 as stated fails: with a record that goes absent, 100, 100, 200 and
    holds RUNNING from time 100 on, the two changes are registered and the
    chunk is refreshed twice, but one notification is emitted, not two: at
    the change from 100 to 200 the status of the chunk stays RUNNING. *)
Lemma checkFileTimes_two_changes_one_notification :
  lastModificationRecords watchingA !! chunkA = Some (-1) ∧
  refreshCount chunkA watchingA = 0%nat ∧
  notificationCount chunkA watchingA = 0%nat ∧
  match threeTicks (K := exampleCollaborators) fsT1 fsT1 fsT2 watchingA with
  | Ok w3 =>
      lastModificationRecords w3 !! chunkA = Some 200 ∧
      refreshCount chunkA w3 = 2%nat ∧
      notificationCount chunkA w3 = 1%nat ∧
      notificationCount chunkA w3 ≠ 2%nat
  | Raise _ => False
  end.
Proof. vm_compute. repeat split; congruence. Qed.

(** C3 as stated fails: when source and destination are both list
    attributes, no element is appended and no macro is opened; the edge goes
    to the list attribute itself, as a single command. *)
Lemma addEdge_list_to_list_appends_nothing :
  isListAttribute listInput = true ∧
  match addEdge (K := exampleCollaborators) listOutput listInput
                (set_graph (Some graphAB) UIGraph_init) with
  | Ok w' =>
      match _graph w' with
      | Some g' =>
          listSize g' listInput = 0%nat ∧
          edges g' !! listInput = Some listOutput ∧
          edges g' !! element listInput 0 = None ∧
          history (_undoStack w') = [Single (AddEdgeCommand listOutput listInput)]
      | None => False
      end
  | Raise _ => False
  end.
Proof. vm_compute. repeat split; congruence. Qed.

Lemma checkFileTimes_absent_T1_T1_T2_witness :
  lastModificationRecords watchingA !! chunkA = Some (-1) ∧
  ∃ w3, threeTicks (K := exampleCollaborators) fsT1 fsT1 fsT2 watchingA = Ok w3 ∧
        refreshCount chunkA w3 = S (S (refreshCount chunkA watchingA)) ∧
        lastModificationRecords w3 !! chunkA = Some 200.
Proof.
  split; [vm_compute; reflexivity|].
  destruct (checkFileTimes_absent_T1_T1_T2 (K := exampleCollaborators)
              fsT1 fsT1 fsT2 watchingA chunkA 100 200)
    as (w1 & w2 & w3 & H1 & H2 & H3 & _ & _ & Hr & Hc1 & Hc2 & Hc3 & _);
    [vm_compute; reflexivity | reflexivity | reflexivity | reflexivity | lia | lia |].
  exists w3. unfold threeTicks. rewrite H1. simpl. rewrite H2. simpl.
  split; [exact H3|]. split; [congruence | exact Hr].
Defined.

Lemma onChunkStatusChanged_then_ticks_are_quiet_witness :
  ChunksMonitor_onChunkStatusChanged fsT1 chunkA watchingA = Ok afterSelfReport ∧
  ∃ w2, ticks (K := exampleCollaborators) [fsT1; fsT1] afterSelfReport = Ok w2 ∧
        refreshCount chunkA w2 = refreshCount chunkA afterSelfReport ∧
        notificationCount chunkA w2 = notificationCount chunkA afterSelfReport.
Proof.
  split; [vm_compute; reflexivity|].
  destruct (onChunkStatusChanged_then_ticks_are_quiet (K := exampleCollaborators)
              fsT1 chunkA watchingA afterSelfReport [fsT1; fsT1])
    as (_ & w2 & Hrun & _ & Hc & Hn).
  - vm_compute; reflexivity.
  - repeat constructor.
  - exists w2. auto.
Defined.

Lemma onChunkStatusChanged_requires_watched_witness :
  is_Some (lastModificationRecords watchingA !! chunkA) ∧
  lastModificationRecords watchingA !! chunkB = None ∧
  (∃ w', ChunksMonitor_onChunkStatusChanged fsT1 chunkA watchingA = Ok w' ∧
         notificationCount chunkA w' = S (notificationCount chunkA watchingA)) ∧
  ChunksMonitor_onChunkStatusChanged fsT1 chunkB watchingA = Raise AssertionError.
Proof.
  assert (HA : is_Some (lastModificationRecords watchingA !! chunkA))
    by (exists (-1); vm_compute; reflexivity).
  assert (HB : lastModificationRecords watchingA !! chunkB = None)
    by (vm_compute; reflexivity).
  split; [exact HA|]. split; [exact HB|]. split.
  - destruct (proj1 (onChunkStatusChanged_requires_watched fsT1 chunkA watchingA) HA)
      as (w' & Hw' & _ & Hn).
    exists w'. auto.
  - exact (proj2 (onChunkStatusChanged_requires_watched fsT1 chunkB watchingA) HB).
Defined.

Lemma execute_noop_while_computing_witness :
  isComputing edited = false ∧
  isComputingLocally computing = true ∧
  execute None computing = computing ∧
  threadStartCount (run [CallExecute None; ThreadEnters; CallExecute None] computing) =
    S (threadStartCount edited) ∧
  computeStatusChangedCount (run [CallExecute None; ThreadEnters; CallExecute None] computing) =
    S (computeStatusChangedCount edited).
Proof.
  assert (HI : isComputing edited = false) by reflexivity.
  assert (HL : isComputingLocally computing = true) by reflexivity.
  split; [exact HI|]. split; [exact HL|]. split.
  - exact (proj1 (execute_noop_while_computing None computing) (or_introl HL)).
  - destruct (proj2 (execute_noop_while_computing None edited) HI
                    [CallExecute None; ThreadEnters; CallExecute None]) as (_ & Ht & Hc).
    split; [exact Ht | exact Hc].
Defined.

Lemma stopExecution_spec_witness :
  isComputingLocally edited = false ∧
  isComputingLocally computing = true ∧ is_Some (_graph computing) ∧
  stopExecution Returned edited = Ok edited ∧
  ∃ w', stopExecution Returned computing = Ok w' ∧
        trace w' = trace computing ++
                   [GraphStopExecution; ComputeStatusChanged; ComputeStatusChanged;
                    ThreadJoin; ComputeStatusChanged] ∧
        isComputingLocally w' = false.
Proof.
  assert (HI : isComputingLocally edited = false) by reflexivity.
  assert (HL : isComputingLocally computing = true) by reflexivity.
  assert (HG : is_Some (_graph computing)) by (eexists; reflexivity).
  split; [exact HI|]. split; [exact HL|]. split; [exact HG|]. split.
  - exact (proj1 (stopExecution_spec Returned edited) HI).
  - destruct (proj2 (stopExecution_spec Returned computing) HL HG) as (w' & Hw' & Htr & _ & Ha).
    exists w'. split; [exact Hw'|]. split; [exact Htr | exact Ha].
Defined.

Lemma updateChunks_idempotent_witness :
  _graph edited = Some (redoImpl (AddEdgeCommand plainOutput (mkAttr "B.input" 0 [])) graphAB) ∧
  ∃ w', updateChunks (K := exampleCollaborators) fsT1 edited = Ok w' ∧
        _sortedDFSChunks w' = [chunkA; chunkB] ∧
        updateChunks (K := exampleCollaborators) fsT2 w' = Ok w'.
Proof.
  split; [reflexivity|].
  destruct (updateChunks_idempotent (K := exampleCollaborators) fsT1 edited
              (redoImpl (AddEdgeCommand plainOutput (mkAttr "B.input" 0 [])) graphAB)
              eq_refl) as (_ & Hnew & Hagain).
  destruct Hnew as (_ & w' & Hw' & Hs & _); [discriminate|].
  exists w'. split; [exact Hw'|]. split; [exact Hs|]. exact (Hagain w' Hw' fsT2).
Defined.

Lemma setGraph_clears_history_witness :
  _graph computing = Some (redoImpl (AddEdgeCommand plainOutput (mkAttr "B.input" 0 [])) graphAB) ∧
  canUndo computing = true ∧
  ∃ w', setGraph (K := exampleCollaborators) fsT1 Returned graphAB computing = Ok w' ∧
        _undoStack w' = emptyUndoStack ∧ canUndo w' = false ∧
        _sortedDFSChunks w' = [chunkA; chunkB].
Proof.
  split; [reflexivity|]. split; [reflexivity|].
  destruct (setGraph_clears_history (K := exampleCollaborators) fsT1 Returned graphAB
              (redoImpl (AddEdgeCommand plainOutput (mkAttr "B.input" 0 [])) graphAB)
              computing eq_refl)
    as (ws & w' & _ & _ & _ & _ & _ & Hw' & _ & Hs & Hu & Hcu & _).
  exists w'. split; [exact Hw'|]. split; [exact Hu|]. split; [exact Hcu | exact Hs].
Defined.

Lemma addEdge_into_list_witness :
  isListAttribute listInput = true ∧ isListAttribute plainOutput = false ∧
  ∃ w' g', addEdge (K := exampleCollaborators) plainOutput listInput
                   (set_graph (Some graphAB) UIGraph_init) = Ok w' ∧
           _graph w' = Some g' ∧
           listSize g' listInput = 1%nat ∧
           edges g' !! element listInput 0 = Some plainOutput.
Proof.
  split; [reflexivity|]. split; [reflexivity|].
  destruct (addEdge_into_list (K := exampleCollaborators) plainOutput listInput
              (set_graph (Some graphAB) UIGraph_init) graphAB)
    as (w' & g' & gu & Hw' & Hg' & Hsz & _ & He & _); try reflexivity.
  exists w', g'. split; [exact Hw'|]. split; [exact Hg'|]. split; [exact Hsz | exact He].
Defined.

(** A tick over two watched chunks: the status file of [chunkA] cannot be
    examined and reads as absent, and [chunkB], whose file appeared, is
    polled and refreshed all the same. *)
Example checkFileTimes_unreadable_does_not_block :
  match setChunks (fun _ => Missing) [chunkA; chunkB] UIGraph_init with
  | Ok w0 =>
      match checkFileTimes (K := exampleCollaborators)
              (twoFiles (statusFile chunkA) Unreadable
                        (statusFile chunkB) (Present 7 SUCCESS)) w0 with
      | Ok w1 =>
          lastModificationRecords w1 !! chunkA = Some (-1) ∧
          lastModificationRecords w1 !! chunkB = Some 7 ∧
          refreshCount chunkA w1 = 0%nat ∧
          refreshCount chunkB w1 = 1%nat
      | Raise _ => False
      end
  | Raise _ => False
  end.
Proof. vm_compute. repeat split; congruence. Qed.

(** * Further properties *)

(** ** What the monitor appends to the trace *)

Lemma countb_app {A} (p : A -> bool) l1 l2 :
  countb p (l1 ++ l2) = (countb p l1 + countb p l2)%nat.
Proof. unfold countb. by rewrite List.filter_app, length_app. Qed.

Lemma countb_singleton {A} (p : A -> bool) e : countb p [e] = delta (p e).
Proof. unfold countb. simpl. by destruct (p e). Qed.

Lemma countb_none {A} (p q : A -> bool) l :
  forallb q l = true → (∀ e, q e = true → p e = false) → countb p l = 0%nat.
Proof.
  intros Hq Hpq. induction l as [|e l IH]; [done|].
  simpl in Hq. apply andb_true_iff in Hq as [He Hl].
  unfold countb in *. simpl. rewrite (Hpq e He). by apply IH.
Qed.

Lemma map_fst_fmap {A B} (l : list (A * B)) : map fst l = l.*1.
Proof. induction l as [|x l IH]; [done|]. simpl. by rewrite IH. Qed.

Lemma UIGraph_onChunkStatusChanged_trace (w : World) :
  ∃ evs, trace (UIGraph_onChunkStatusChanged w) = trace w ++ evs ∧
         forallb monitorEvent evs = true.
Proof.
  unfold UIGraph_onChunkStatusChanged. destruct (negb _ || negb _).
  - by exists [ComputeStatusChanged].
  - exists []. by rewrite app_nil_r.
Qed.

Lemma ChunksMonitor_clear_trace (w : World) :
  trace (ChunksMonitor_clear w) =
  trace w ++ map StatusChangedDisconnected ((map_to_list (lastModificationRecords w)).*1).
Proof.
  unfold ChunksMonitor_clear. rewrite map_fst_fmap. simpl.
  generalize ((map_to_list (lastModificationRecords w)).*1). intros l. revert w.
  induction l as [|c l IH]; intros w; simpl; [by rewrite app_nil_r|].
  rewrite IH. simpl. by rewrite <- app_assoc.
Qed.

Lemma setChunks_steps_trace (fs : FileSystem) (chunks : list NodeChunk) (w w' : World) :
  foldM (setChunks_step fs) chunks w = Ok w' →
  trace w' = trace w ++ map StatusChangedConnected chunks.
Proof.
  revert w. induction chunks as [|c chunks IH]; intros w.
  - intros [= <-]. by rewrite app_nil_r.
  - cbn [foldM]. rewrite setChunks_step_eq. cbn [mbind Result_bind].
    intros Hrun. rewrite (IH _ Hrun). simpl. by rewrite <- app_assoc.
Qed.

(** The events of [setChunks], in order: one disconnection per chunk
    watched before, one connection per chunk of the list, the
    notification and what the aggregation slot emits. *)
Lemma setChunks_trace (fs : FileSystem) (chunks : list NodeChunk) (w w' : World) :
  setChunks fs chunks w = Ok w' →
  ∃ evs, trace w' =
           trace w ++ map StatusChangedDisconnected ((map_to_list (lastModificationRecords w)).*1)
                   ++ map StatusChangedConnected chunks
                   ++ ChunkStatusChanged None MinusOne :: evs ∧
         forallb (fun e => bool_decide (e = ComputeStatusChanged)) evs = true.
Proof.
  unfold setChunks.
  destruct (foldM (setChunks_step fs) chunks (ChunksMonitor_clear w)) as [w1|] eqn:Hsteps;
    [|done].
  cbn [mbind Result_bind]. intros [= <-].
  apply setChunks_steps_trace in Hsteps. rewrite ChunksMonitor_clear_trace in Hsteps.
  unfold chunkStatusChanged_emit, UIGraph_onChunkStatusChanged.
  destruct (negb _ || negb _); simpl; rewrite Hsteps.
  - exists [ComputeStatusChanged]. split; [|done]. by rewrite <- !app_assoc.
  - exists []. split; [|done]. by rewrite <- !app_assoc.
Qed.

Lemma countb_connect_map (c : NodeChunk) (l : list NodeChunk) :
  NoDup l → countb (isConnect c) (map StatusChangedConnected l) = delta (bool_decide (c ∈ l)).
Proof.
  induction 1 as [|x l Hx Hnd IH]; [done|].
  unfold countb in *. simpl. unfold isConnect at 1.
  destruct (decide (c = x)) as [->|Hne].
  - rewrite bool_decide_true by done. simpl. rewrite IH.
    rewrite (bool_decide_false (x ∈ l)) by done.
    by rewrite bool_decide_true by left.
  - rewrite bool_decide_false by congruence. rewrite IH.
    f_equal. apply bool_decide_ext. rewrite elem_of_cons.
    split; [by right | by intros [?|?]].
Qed.

Lemma countb_disconnect_map (c : NodeChunk) (l : list NodeChunk) :
  NoDup l →
  countb (isDisconnect c) (map StatusChangedDisconnected l) = delta (bool_decide (c ∈ l)).
Proof.
  induction 1 as [|x l Hx Hnd IH]; [done|].
  unfold countb in *. simpl. unfold isDisconnect at 1.
  destruct (decide (c = x)) as [->|Hne].
  - rewrite bool_decide_true by done. simpl. rewrite IH.
    rewrite (bool_decide_false (x ∈ l)) by done.
    by rewrite bool_decide_true by left.
  - rewrite bool_decide_false by congruence. rewrite IH.
    f_equal. apply bool_decide_ext. rewrite elem_of_cons.
    split; [by right | by intros [?|?]].
Qed.

Lemma countb_map_other (p : Event -> bool) (f : NodeChunk -> Event) (l : list NodeChunk) :
  (∀ x, p (f x) = false) → countb p (map f l) = 0%nat.
Proof.
  intros Hp. induction l as [|x l IH]; [done|].
  unfold countb in *. simpl. by rewrite Hp.
Qed.

Lemma countb_compute_only (p : Event -> bool) (evs : list Event) :
  forallb (fun e => bool_decide (e = ComputeStatusChanged)) evs = true →
  p ComputeStatusChanged = false → countb p evs = 0%nat.
Proof.
  intros Hall Hp.
  apply (countb_none p (fun e => bool_decide (e = ComputeStatusChanged))); [done|].
  by intros e ->%bool_decide_eq_true.
Qed.

Lemma elem_of_keys (w : World) (c : NodeChunk) :
  c ∈ (map_to_list (lastModificationRecords w)).*1 ↔ is_Some (lastModificationRecords w !! c).
Proof.
  rewrite list_elem_of_fmap. split.
  - intros ([c' t] & -> & Hin). apply elem_of_map_to_list in Hin. by exists t.
  - intros [t Ht]. exists (c, t). split; [done|]. by apply elem_of_map_to_list.
Qed.

Section MonitorTrace.
Context {K : Collaborators}.

Lemma onChunkStatusChanged_trace fs c w :
  is_Some (lastModificationRecords w !! c) →
  ∃ w' evs, ChunksMonitor_onChunkStatusChanged fs c w = Ok w' ∧
            trace w' = trace w ++ ChunkStatusChanged (Some c) (OfStatus (status w c)) :: evs ∧
            forallb (fun e => bool_decide (e = ComputeStatusChanged)) evs = true ∧
            flagsUpToDate w'.
Proof.
  intros Hin. unfold ChunksMonitor_onChunkStatusChanged.
  rewrite decide_True by done. rewrite getFileLastModTime_indicator.
  cbn [mbind Result_bind].
  set (w1 := set_records _ w). change (status w1 c) with (status w c).
  unfold chunkStatusChanged_emit.
  set (w2 := emit _ w1).
  pose proof (UIGraph_onChunkStatusChanged_flags w2) as Hflags.
  unfold UIGraph_onChunkStatusChanged in *. destruct (negb _ || negb _).
  - eexists _, [ComputeStatusChanged]. split; [done|]. simpl.
    split; [by rewrite <- app_assoc|]. split; [done | exact Hflags].
  - eexists _, []. split; [done|]. simpl. split; [done|]. split; [done | exact Hflags].
Qed.

(** One iteration of the loop of [checkFileTimes]: what it appends to the
    trace, and what it does to the aggregated flags. *)
Lemma checkFileTimes_step_trace fs c t w :
  is_Some (lastModificationRecords w !! c) →
  ∃ w' evs, checkFileTimes_step fs w (c, t) = Ok w' ∧
            trace w' = trace w ++ evs ∧ forallb monitorEvent evs = true ∧
            ((_running w' = _running w ∧ _submitted w' = _submitted w) ∨ flagsUpToDate w').
Proof.
  intros Hin. unfold checkFileTimes_step. cbn [fst snd].
  rewrite getFileLastModTime_indicator. cbn [mbind Result_bind].
  destruct (decide _) as [Hne|Heq].
  - set (w1 := set_records _ w). unfold chunk_updateStatusFromCache.
    set (r := updateStatusFromCache fs c (status w1 c)).
    set (w2 := set_chunkStatus _ _).
    destruct (r.2).
    + destruct (onChunkStatusChanged_trace fs c w2) as (w3 & evs & -> & Htr & Hevs & Hfl).
      { unfold w2, w1. simpl. rewrite lookup_insert_eq. by eexists. }
      cbn [mbind Result_bind].
      eexists _, (UpdateStatusFromCache c :: ChunkStatusChanged (Some c) (OfStatus (status w2 c))
                    :: evs ++ [LogDebug c (status w3 c)]).
      split; [done|]. simpl. rewrite Htr. unfold w2, w1. simpl.
      split; [by rewrite <- !app_assoc|]. split.
      * rewrite forallb_app. simpl. rewrite andb_true_r.
        clear -Hevs. induction evs as [|e evs IH]; [done|]. simpl in *.
        apply andb_true_iff in Hevs as [->%bool_decide_eq_true Hevs]. by apply IH.
      * right. exact Hfl.
    + cbn [mbind Result_bind].
      eexists _, [UpdateStatusFromCache c; LogDebug c (status w2 c)].
      split; [done|]. simpl. split; [by rewrite <- !app_assoc|]. split; [done|].
      left. by split.
  - exists w, []. split; [done|]. split; [by rewrite app_nil_r|]. split; [done|].
    left. by split.
Qed.

(** A poll tick appends nothing to the trace but calls of the refresh, its
    debug log, notifications of watched chunks and [computeStatusChanged]. *)
Lemma checkFileTimes_trace fs w w' :
  checkFileTimes fs w = Ok w' →
  ∃ evs, trace w' = trace w ++ evs ∧ forallb monitorEvent evs = true.
Proof.
  unfold checkFileTimes.
  assert (Hkeys : ∀ c t, (c, t) ∈ map_to_list (lastModificationRecords w) →
                         is_Some (lastModificationRecords w !! c)).
  { intros c t Hin. apply elem_of_map_to_list in Hin. by exists t. }
  revert Hkeys. generalize (map_to_list (lastModificationRecords w)) as items.
  intros items. revert w. induction items as [|[c t] items IH]; intros w Hkeys.
  - intros [= <-]. exists []. by rewrite app_nil_r.
  - cbn [foldM].
    destruct (checkFileTimes_step_trace fs c t w) as (w1 & evs1 & Hstep & Htr1 & Hev1 & _).
    { eapply Hkeys. left. }
    rewrite Hstep. cbn [mbind Result_bind]. intros Hrun.
    destruct (checkFileTimes_step_spec fs c t w) as (w1' & Hstep' & Hr & _);
      [eapply Hkeys; left|].
    rewrite Hstep in Hstep'. injection Hstep' as <-.
    destruct (IH w1) as (evs2 & Htr2 & Hev2); [|done|].
    { intros c' t' Hin. rewrite Hr. destruct (changed fs c t); [|eapply Hkeys; by right].
      destruct (decide (c = c')) as [<-|Hne].
      - rewrite lookup_insert_eq. by eexists.
      - rewrite lookup_insert_ne by done. eapply Hkeys. by right. }
    exists (evs1 ++ evs2). rewrite Htr2, Htr1, <- app_assoc. split; [done|].
    rewrite forallb_app. by rewrite Hev1, Hev2.
Qed.

Lemma checkFileTimes_watched fs w w' c :
  checkFileTimes fs w = Ok w' → watched c w' = watched c w.
Proof.
  intros Hrun. destruct (checkFileTimes_spec fs w) as (w2 & Hw2 & _ & Hout & Hin).
  rewrite Hrun in Hw2. injection Hw2 as <-.
  unfold watched. destruct (lastModificationRecords w !! c) as [t|] eqn:Hc.
  - destruct (Hin c t Hc) as (-> & _). apply bool_decide_ext. split; by eexists.
  - destruct (Hout c Hc) as (-> & _). by rewrite Hc.
Qed.

End MonitorTrace.

(** ** The watch list *)

(** X1.  [setChunks] returns for every list and every state of the files.
    Afterwards the monitor watches the chunks of the list and no other, each
    with the current indicator of its status file; it has emitted
    [chunkStatusChanged(None, -1)] once and no notification or refresh for
    any chunk, the aggregated flags of UIGraph are up to date, and the
    statuses of the chunks and the other fields of UIGraph are as before. *)
Theorem setChunks_replaces_watch_list (fs : FileSystem) (chunks : list NodeChunk) (w : World) :
  ∃ w', setChunks fs chunks w = Ok w' ∧
        (∀ c, lastModificationRecords w' !! c =
              if decide (c ∈ chunks) then Some (indicator fs (statusFile c)) else None) ∧
        listReplacedCount w' = S (listReplacedCount w) ∧
        (∀ c, notificationCount c w' = notificationCount c w ∧
              refreshCount c w' = refreshCount c w) ∧
        flagsUpToDate w' ∧
        chunkStatus w' = chunkStatus w ∧ sameUIGraph w w'.
Proof.
  destruct (setChunks_spec fs chunks w) as (w' & Hrun & Hf & Hr).
  exists w'. split; [done|]. split; [done|].
  destruct (setChunks_trace fs chunks w w' Hrun) as (evs & Htr & Hevs).
  assert (Hcount : ∀ p, p ComputeStatusChanged = false →
                        (∀ x, p (StatusChangedDisconnected x) = false) →
                        (∀ x, p (StatusChangedConnected x) = false) →
                        countb p (trace w') =
                        (countb p (trace w) + delta (p (ChunkStatusChanged None MinusOne)))%nat).
  { intros p Hp Hd Hc. rewrite Htr, !countb_app.
    rewrite (countb_map_other p _ _ Hd), (countb_map_other p _ _ Hc).
    change (ChunkStatusChanged None MinusOne :: evs)
      with ([ChunkStatusChanged None MinusOne] ++ evs).
    rewrite countb_app, (countb_compute_only p evs Hevs Hp).
    rewrite countb_singleton. lia. }
  split; [|split; [|split; [|split; [|done]]]].
  - unfold listReplacedCount. rewrite Hcount by done. simpl. lia.
  - intros c. unfold notificationCount, refreshCount. rewrite !Hcount by done. simpl.
    split; lia.
  - unfold setChunks in Hrun.
    destruct (foldM _ _ _) as [w1|]; [|done]. injection Hrun as <-.
    apply UIGraph_onChunkStatusChanged_flags.
  - unfold setChunks in Hrun.
    destruct (setChunks_steps fs chunks (ChunksMonitor_clear w)) as (w1 & Hw1 & _ & Hs & _).
    rewrite Hw1 in Hrun. injection Hrun as <-.
    destruct (chunkStatusChanged_emit_frame None MinusOne w1) as (_ & Hs' & _).
    simpl in Hs'. rewrite Hs', Hs. apply ChunksMonitor_clear_spec.
Qed.

(** X3.  As long as the lists handed to [setChunks] hold every chunk once,
    the slot of the monitor stays connected exactly once to every watched
    chunk and to no other: [setChunks], [clear], a poll tick and the slot
    itself all keep that balance. *)
Theorem connections_stay_balanced {K : Collaborators} (fs : FileSystem) (w : World) :
  connectionsBalanced w →
  (∀ chunks w', NoDup chunks → setChunks fs chunks w = Ok w' → connectionsBalanced w') ∧
  connectionsBalanced (ChunksMonitor_clear w) ∧
  (∀ w', checkFileTimes fs w = Ok w' → connectionsBalanced w') ∧
  (∀ c w', ChunksMonitor_onChunkStatusChanged fs c w = Ok w' → connectionsBalanced w').
Proof.
  intros Hb.
  assert (Hkeys : ∀ c, bool_decide (c ∈ (map_to_list (lastModificationRecords w)).*1)
                       = watched c w).
  { intros c. apply bool_decide_ext, elem_of_keys. }
  split; [|split; [|split]].
  - intros chunks w' Hnd Hrun c.
    destruct (setChunks_trace fs chunks w w' Hrun) as (evs & Htr & Hevs).
    destruct (setChunks_spec fs chunks w) as (w2 & Hw2 & _ & Hr).
    rewrite Hrun in Hw2. injection Hw2 as <-.
    unfold connectCount, disconnectCount. rewrite Htr, !countb_app.
    change (ChunkStatusChanged None MinusOne :: evs)
      with ([ChunkStatusChanged None MinusOne] ++ evs).
    rewrite !countb_app.
    rewrite (countb_compute_only (isConnect c) evs Hevs eq_refl).
    rewrite (countb_compute_only (isDisconnect c) evs Hevs eq_refl).
    rewrite (countb_map_other (isConnect c) StatusChangedDisconnected) by done.
    rewrite (countb_map_other (isDisconnect c) StatusChangedConnected) by done.
    rewrite countb_connect_map by done.
    rewrite countb_disconnect_map by apply NoDup_fst_map_to_list.
    rewrite Hkeys. specialize (Hb c). unfold connectCount, disconnectCount in Hb.
    rewrite Hb, !countb_singleton. simpl.
    assert (watched c w' = bool_decide (c ∈ chunks)) as ->.
    { unfold watched. apply bool_decide_ext. rewrite Hr.
      destruct (decide (c ∈ chunks)); split; try done; try by eexists. }
    lia.
  - intros c. unfold connectCount, disconnectCount.
    rewrite ChunksMonitor_clear_trace, !countb_app.
    rewrite (countb_map_other (isConnect c) StatusChangedDisconnected) by done.
    rewrite countb_disconnect_map by apply NoDup_fst_map_to_list.
    rewrite Hkeys. specialize (Hb c). unfold connectCount, disconnectCount in Hb.
    rewrite Hb.
    assert (watched c (ChunksMonitor_clear w) = false) as ->.
    { unfold watched, ChunksMonitor_clear. simpl. rewrite lookup_empty.
      apply bool_decide_eq_false. by intros [? ?]. }
    simpl. lia.
  - intros w' Hrun c.
    destruct (checkFileTimes_trace fs w w' Hrun) as (evs & Htr & Hevs).
    unfold connectCount, disconnectCount. rewrite Htr, !countb_app.
    rewrite (countb_none (isConnect c) monitorEvent evs Hevs),
            (countb_none (isDisconnect c) monitorEvent evs Hevs).
    + rewrite (checkFileTimes_watched fs w w' c Hrun).
      specialize (Hb c). unfold connectCount, disconnectCount in Hb. lia.
    + by intros [].
    + by intros [].
  - intros c0 w' Hrun c.
    unfold ChunksMonitor_onChunkStatusChanged in Hrun.
    destruct (decide _) as [Hin|]; [|done].
    destruct (onChunkStatusChanged_trace fs c0 w Hin) as (w2 & evs & Hw2 & Htr & Hevs & _).
    destruct (onChunkStatusChanged_watched fs c0 w Hin) as (w3 & Hw3 & Hr & _).
    unfold ChunksMonitor_onChunkStatusChanged in Hw2, Hw3.
    rewrite decide_True in Hw2, Hw3 by done.
    rewrite Hrun in Hw2, Hw3. injection Hw2 as <-. injection Hw3 as <-.
    unfold connectCount, disconnectCount. rewrite Htr.
    change (ChunkStatusChanged (Some c0) (OfStatus (status w c0)) :: evs)
      with ([ChunkStatusChanged (Some c0) (OfStatus (status w c0))] ++ evs).
    rewrite !countb_app.
    rewrite (countb_compute_only (isConnect c) evs Hevs eq_refl).
    rewrite (countb_compute_only (isDisconnect c) evs Hevs eq_refl).
    rewrite !countb_singleton. simpl.
    assert (watched c w' = watched c w) as ->.
    { unfold watched. rewrite Hr. apply bool_decide_ext.
      destruct (decide (c0 = c)) as [<-|Hne].
      - rewrite lookup_insert_eq. split; [done | by eexists].
      - by rewrite lookup_insert_ne. }
    specialize (Hb c). unfold connectCount, disconnectCount in Hb. lia.
Qed.

Section WatchList.
Context {K : Collaborators}.

(** X2.  With an empty list [setChunks] leaves the monitor without any
    watched chunk, and a poll tick then returns without changing
    anything: no refresh, no notification, no exception. *)
Theorem setChunks_empty_then_tick (fs fs' : FileSystem) (w : World) :
  ∃ w', setChunks fs [] w = Ok w' ∧ lastModificationRecords w' = ∅ ∧
        checkFileTimes fs' w' = Ok w'.
Proof.
  destruct (setChunks_spec fs [] w) as (w' & Hrun & _ & Hr).
  assert (He : lastModificationRecords w' = ∅).
  { apply map_eq. intros c. rewrite Hr, lookup_empty.
    rewrite decide_False; [done | apply not_elem_of_nil]. }
  exists w'. split; [done|]. split; [done|].
  apply checkFileTimes_quiet. intros c t. by rewrite He, lookup_empty.
Qed.

(** X4.  A poll tick returns in every state and keeps to the monitor: the
    set of watched chunks is the same afterwards, a chunk that is not
    watched is neither refreshed nor notified and keeps its status, the undo
    stack, the graph, the compute thread and the sorted chunk list are
    untouched, and the trace only grows by calls of the refresh, its debug
    log, notifications of chunks and [computeStatusChanged]. *)
Theorem checkFileTimes_frame (fs : FileSystem) (w : World) :
  ∃ w' evs, checkFileTimes fs w = Ok w' ∧
            dom (lastModificationRecords w') = dom (lastModificationRecords w) ∧
            (∀ c, lastModificationRecords w !! c = None →
                  status w' c = status w c ∧ refreshCount c w' = refreshCount c w ∧
                  notificationCount c w' = notificationCount c w) ∧
            sameUIGraph w w' ∧
            trace w' = trace w ++ evs ∧ forallb monitorEvent evs = true.
Proof.
  destruct (checkFileTimes_spec fs w) as (w' & Hrun & Hf & Hout & Hin).
  destruct (checkFileTimes_trace fs w w' Hrun) as (evs & Htr & Hevs).
  exists w', evs. split; [done|]. split; [|split; [|done]].
  - apply set_eq. intros c. rewrite !elem_of_dom.
    pose proof (checkFileTimes_watched fs w w' c Hrun) as Hw. unfold watched in Hw.
    split; intros Hc.
    + apply (bool_decide_eq_true_1 (is_Some (lastModificationRecords w !! c))).
      rewrite <- Hw. by apply bool_decide_eq_true_2.
    + apply (bool_decide_eq_true_1 (is_Some (lastModificationRecords w' !! c))).
      rewrite Hw. by apply bool_decide_eq_true_2.
  - intros c Hc. pose proof (Hout c Hc) as Hu.
    split; [by apply untouched_status|]. destruct Hu as (_ & _ & ? & ?). by split.
Qed.

(** X5.  A second poll tick over the same state of the file system changes
    nothing: after a tick every stored value is the current indicator. *)
Theorem checkFileTimes_twice (fs : FileSystem) (w : World) :
  ∃ w', checkFileTimes fs w = Ok w' ∧ checkFileTimes fs w' = Ok w'.
Proof.
  destruct (checkFileTimes_spec fs w) as (w' & Hrun & _ & Hout & Hin).
  exists w'. split; [done|]. apply checkFileTimes_quiet. intros c t Hc.
  destruct (lastModificationRecords w !! c) as [t0|] eqn:Hw.
  - destruct (Hin c t0 Hw) as (Hr & _). congruence.
  - destruct (Hout c Hw) as (Hr & _). congruence.
Qed.

End WatchList.

(** ** The computation state *)

(** X6.  The aggregation slot of UIGraph brings the two flags up to date
    with the statuses of the sorted chunks and emits
    [computeStatusChanged] exactly when one of them changed: run again
    right away, or run when the flags are up to date already, it changes
    nothing.  It never touches the monitor, the statuses or the rest of
    UIGraph. *)
Theorem UIGraph_onChunkStatusChanged_transition_only (w : World) :
  let w' := UIGraph_onChunkStatusChanged w in
  flagsUpToDate w' ∧
  UIGraph_onChunkStatusChanged w' = w' ∧
  (flagsUpToDate w → w' = w) ∧
  computeStatusChangedCount w' =
    (computeStatusChangedCount w +
     delta (negb (eqb (_running w) (anyStatus RUNNING w)) ||
            negb (eqb (_submitted w) (anyStatus SUBMITTED w))))%nat ∧
  lastModificationRecords w' = lastModificationRecords w ∧
  chunkStatus w' = chunkStatus w ∧ sameUIGraph w w'.
Proof.
  intros w'.
  assert (Hid : ∀ w0, flagsUpToDate w0 → UIGraph_onChunkStatusChanged w0 = w0).
  { intros w0 [Hr Hs]. unfold UIGraph_onChunkStatusChanged.
    rewrite <- Hr, <- Hs. by rewrite !eqb_reflx. }
  assert (Hfl : flagsUpToDate w') by apply UIGraph_onChunkStatusChanged_flags.
  destruct (UIGraph_onChunkStatusChanged_frame w) as (Hr & Hs & Hf & _). fold w' in Hr, Hs, Hf.
  split; [exact Hfl|]. split; [exact (Hid w' Hfl)|]. split; [apply Hid|].
  split; [|split; [exact Hr | split; [exact Hs | exact Hf]]].
  unfold w', UIGraph_onChunkStatusChanged, computeStatusChangedCount.
  destruct (negb _ || negb _); simpl; [|lia].
  rewrite countb_snoc. simpl. lia.
Qed.

Section SelfReport.
Context {K : Collaborators}.

(** X16.  When a watched chunk announces a change, the slot of the monitor
    emits the notification with the status the chunk holds in memory, and
    the aggregation slot has run by the time it returns: the flags are up
    to date, so [computingExternally] is true exactly when no compute
    thread is alive and a chunk of the sorted list is RUNNING or
    SUBMITTED. *)
Theorem onChunkStatusChanged_updates_flags (fs : FileSystem) (c : NodeChunk) (w : World) :
  is_Some (lastModificationRecords w !! c) →
  ∃ w' evs, ChunksMonitor_onChunkStatusChanged fs c w = Ok w' ∧
            trace w' = trace w ++ ChunkStatusChanged (Some c) (OfStatus (status w c)) :: evs ∧
            forallb (fun e => bool_decide (e = ComputeStatusChanged)) evs = true ∧
            flagsUpToDate w' ∧
            (isComputingExternally w' = true ↔
             isComputingLocally w' = false ∧
             ∃ ch, ch ∈ _sortedDFSChunks w' ∧
                   (status w' ch = RUNNING ∨ status w' ch = SUBMITTED)).
Proof.
  intros Hin.
  destruct (onChunkStatusChanged_trace fs c w Hin) as (w' & evs & Hrun & Htr & Hevs & Hfl).
  exists w', evs. split; [done|]. split; [done|]. split; [done|]. split; [done|].
  destruct Hfl as [Hr Hs]. unfold isComputingExternally.
  rewrite andb_true_iff, orb_true_iff, negb_true_iff, Hr, Hs, !anyStatus_true. split.
  - intros [[(ch & ? & ?)|(ch & ? & ?)] Hl]; (split; [done|]); exists ch; auto.
  - intros [Hl (ch & ? & [?|?])]; (split; [|done]); [left|right]; exists ch; auto.
Qed.

End SelfReport.

(** X7.  A run of the compute thread from start to end: from a state in
    which nothing is being computed, [execute] followed by the whole of
    [_execute] emits [computeStatusChanged] twice (on start and on
    completion), logs an error exactly when [executeGraph] raised, and
    leaves no thread alive and nothing being computed, so that a further
    [execute] starts a second thread. *)
Theorem execute_full_run (n n' : option Node) (o : Outcome) (w : World) :
  isComputing w = false →
  let w' := _execute_leave o (_execute_enter (execute n w)) in
  _computeThread w' = Finished ∧
  isComputing w' = false ∧
  computeStatusChangedCount w' = S (S (computeStatusChangedCount w)) ∧
  logErrorCount w' =
    (logErrorCount w + delta (match o with Raised _ => true | Returned => false end))%nat ∧
  threadStartCount w' = S (threadStartCount w) ∧
  threadStartCount (execute n' w') = S (S (threadStartCount w)).
Proof.
  intros Hc w'. unfold w', execute. rewrite Hc.
  unfold isComputing, isComputingExternally, isComputingLocally in *.
  apply orb_false_elim in Hc as [Hl Hc]. rewrite Hl in Hc. rewrite andb_true_r in Hc.
  unfold _execute_enter, _execute_leave. simpl.
  unfold computeStatusChangedCount, logErrorCount, threadStartCount.
  destruct o; simpl; rewrite ?Hc; simpl; rewrite !countb_snoc; simpl;
    repeat split; lia.
Qed.

(** On an installed graph [stopExecution] leaves the monitor, the
    statuses, the graph, the undo stack and the sorted chunks alone. *)
Lemma stopExecution_frame (o : Outcome) (w w' : World) :
  stopExecution o w = Ok w' →
  lastModificationRecords w' = lastModificationRecords w ∧
  chunkStatus w' = chunkStatus w ∧ _graph w' = _graph w ∧
  _undoStack w' = _undoStack w ∧ _sortedDFSChunks w' = _sortedDFSChunks w ∧
  _running w' = _running w ∧ _submitted w' = _submitted w ∧
  isComputingLocally w' = false.
Proof.
  unfold stopExecution. destruct (negb (isComputingLocally w)) eqn:Hl.
  - intros [= <-]. apply negb_true_iff in Hl. by repeat split.
  - destruct (_graph w) eqn:Hg; [|done]. intros [= <-].
    unfold Thread_join, _execute_leave, _execute_enter, isComputingLocally in *.
    destruct (_computeThread w) eqn:Ht; try done; destruct o; simpl;
      repeat (rewrite Ht; simpl); by repeat split.
Qed.

(** X8.  On an installed graph [stopExecution] returns, and a second call
    right after it changes nothing; the graph, the undo stack, the sorted
    chunks, the aggregated flags and the monitor are as before the first
    call. *)
Theorem stopExecution_twice (o o' : Outcome) (w : World) :
  is_Some (_graph w) →
  ∃ w', stopExecution o w = Ok w' ∧ stopExecution o' w' = Ok w' ∧
        _graph w' = _graph w ∧ _undoStack w' = _undoStack w ∧
        _sortedDFSChunks w' = _sortedDFSChunks w ∧
        lastModificationRecords w' = lastModificationRecords w ∧
        _running w' = _running w ∧ _submitted w' = _submitted w.
Proof.
  intros Hg. destruct (stopExecution_returns o w Hg) as (w' & Hrun).
  destruct (stopExecution_frame o w w' Hrun) as (Hr & _ & Hg' & Hu & Hs & Hru & Hsu & Hl).
  exists w'. split; [done|]. split; [|by repeat split].
  unfold stopExecution. by rewrite Hl.
Qed.

(** X10.  [UIGraph.clear] drops the graph (asking for its deletion once, if
    there was one), empties the sorted chunk list and the undo stack, and
    leaves the compute thread and the watch list of the monitor as they
    are; a second [clear] changes nothing. *)
Theorem UIGraph_clear_idempotent (w : World) :
  let w' := UIGraph_clear w in
  _graph w' = None ∧ _sortedDFSChunks w' = [] ∧ _undoStack w' = emptyUndoStack ∧
  _computeThread w' = _computeThread w ∧
  lastModificationRecords w' = lastModificationRecords w ∧
  countb isGraphDeleteLater (trace w') =
    (countb isGraphDeleteLater (trace w) + delta (bool_decide (is_Some (_graph w))))%nat ∧
  UIGraph_clear w' = w'.
Proof.
  unfold UIGraph_clear. destruct (_graph w) eqn:Hg; simpl.
  - rewrite countb_snoc. simpl. repeat split; try done; try lia.
  - rewrite Hg. simpl. repeat split; try done; try lia.
Qed.

(** X9.  [clear] does not stop the compute thread: called while a thread is
    alive it leaves UIGraph with a live thread and no graph, and
    [stopExecution] then raises instead of stopping it. *)
Theorem clear_then_stopExecution_raises (o : Outcome) (w : World) :
  isComputingLocally w = true →
  isComputingLocally (UIGraph_clear w) = true ∧
  stopExecution o (UIGraph_clear w) = Raise AttributeError.
Proof.
  intros Hl.
  destruct (UIGraph_clear_idempotent w) as (Hg & _ & _ & Ht & _).
  assert (Hl' : isComputingLocally (UIGraph_clear w) = true).
  { unfold isComputingLocally in *. by rewrite Ht. }
  split; [done|]. unfold stopExecution. by rewrite Hl', Hg.
Qed.

(** ** Installing a graph *)

Section Install.
Context {K : Collaborators}.

(** X11.  When UIGraph holds no graph, [setGraph] neither stops anything
    nor clears anything: the new graph is installed with its chunks as
    sorted list, and the undo stack and the compute thread are the ones
    from before. *)
Theorem setGraph_without_graph_keeps_history (fs : FileSystem) (o : Outcome) (g : Graph)
    (w : World) :
  _graph w = None →
  ∃ w', setGraph fs o g w = Ok w' ∧
        _graph w' = Some g ∧
        _sortedDFSChunks w' = getChunks g (dfsOnFinish g) ∧
        _undoStack w' = _undoStack w ∧
        _computeThread w' = _computeThread w.
Proof.
  intros Hg. unfold setGraph. rewrite Hg. cbn [mbind Result_bind].
  destruct (updateChunks_spec fs (emit GraphUpdatedConnected (set_graph (Some g) w)) g)
    as (w3 & Hw3 & Hs & Hg3 & Hu & Ht); [done|].
  unfold onGraphUpdated. rewrite Hw3. cbn [mbind Result_bind].
  eexists. split; [done|]. simpl. by repeat split.
Qed.

(** X12.  The watch list after [setGraph] on a UIGraph that holds a graph.
    When the new graph has chunks, the monitor watches exactly these, each
    with the current indicator of its status file.  When the new graph has
    no chunk, the recompute finds the sorted list, just emptied by [clear],
    unchanged and returns early: the monitor is not told and keeps watching
    the chunks of the previous graph. *)
Theorem setGraph_watch_list (fs : FileSystem) (o : Outcome) (g g0 : Graph) (w : World) :
  _graph w = Some g0 →
  let chunks := getChunks g (dfsOnFinish g) in
  ∃ w', setGraph fs o g w = Ok w' ∧ _sortedDFSChunks w' = chunks ∧
        (chunks = [] → lastModificationRecords w' = lastModificationRecords w) ∧
        (chunks ≠ [] →
         ∀ c, lastModificationRecords w' !! c =
              if decide (c ∈ chunks) then Some (indicator fs (statusFile c)) else None).
Proof.
  intros Hg chunks. unfold setGraph. rewrite Hg.
  destruct (stopExecution_returns o w) as (ws & Hws); [by eexists|].
  rewrite Hws. cbn [mbind Result_bind].
  destruct (stopExecution_frame o w ws Hws) as (Hr & _).
  destruct (UIGraph_clear_idempotent ws) as (_ & Hs & _ & _ & Hr' & _).
  set (w2 := emit GraphUpdatedConnected (set_graph (Some g) (UIGraph_clear ws))).
  assert (Hs2 : _sortedDFSChunks w2 = []) by exact Hs.
  assert (Hr2 : lastModificationRecords w2 = lastModificationRecords w).
  { change (lastModificationRecords w2) with (lastModificationRecords (UIGraph_clear ws)).
    etransitivity; [exact Hr' | exact Hr]. }
  unfold onGraphUpdated, updateChunks.
  change (_graph w2) with (Some g). cbv beta iota zeta. rewrite Hs2.
  fold chunks. destruct (decide ([] = chunks)) as [Heq|Hne].
  - cbn [mbind Result_bind]. exists (emit GraphChanged w2). split; [reflexivity|].
    split; [by rewrite <- Heq|]. split; [by intros _|]. by intros [].
  - destruct (setChunks_spec fs chunks (set_sortedDFSChunks chunks w2))
      as (w3 & Hw3 & (_ & _ & _ & _ & Hs3) & Hr3).
    change (_sortedDFSChunks (set_sortedDFSChunks chunks w2)) with chunks.
    rewrite Hw3. cbn [mbind Result_bind].
    exists (emit GraphChanged w3). split; [reflexivity|].
    split; [exact Hs3|]. split; [by intros ->|]. by intros _.
Qed.

End Install.

(** ** Grouped modifications *)

(** X13.  [endModification] fails its assertion when no modification is
    open.  After [beginModification] it returns, and the pair leaves the
    count of open modifications, the depth of open macros and the graph as
    they were. *)
Theorem endModification_beginModification (name : string) (w : World) :
  (_modificationCount w = 0%nat → endModification w = Raise AssertionError) ∧
  ∃ w', endModification (beginModification name w) = Ok w' ∧
        _modificationCount w' = _modificationCount w ∧
        macroDepth (_undoStack w') = macroDepth (_undoStack w) ∧
        _graph w' = _graph w.
Proof.
  split.
  - intros Hc. unfold endModification. by rewrite Hc.
  - unfold endModification, beginModification, beginMacro, endMacro. simpl.
    destruct (macroDepth (_undoStack w)) as [|d] eqn:Hd; simpl;
      eexists; (split; [reflexivity|]); simpl; by repeat split.
Qed.

(** ** Edges *)

Section MoreEdits.
Context {K : Collaborators}.

Lemma tryAndPush_rejected (c : Command) (w : World) (g : Graph) :
  _graph w = Some g → accepts g c = false → tryAndPush c w = (false, w).
Proof. intros Hg Hc. unfold tryAndPush. by rewrite Hg, Hc. Qed.

(** X14.  [addEdge] does not look at what [push] returns.  When [dst] is a
    list attribute, [src] is not, and the graph refuses the edge, the
    element appended for it stays: the list is one element longer, the
    edges are as before, and the macro recorded in the undo history holds
    the insertion alone. *)
Theorem addEdge_rejected_edge_leaves_element (src dst : Attribute) (w : World) (g : Graph) :
  _graph w = Some g →
  macroDepth (_undoStack w) = 0%nat →
  isListAttribute dst = true →
  isListAttribute src = false →
  let new := element dst (listSize g dst) in
  let append := ListAttributeAppendCommand dst PyNone in
  edgeAccepted (redoImpl append g) src new = false →
  ∃ w' g',
    addEdge src dst w = Ok w' ∧ _graph w' = Some g' ∧
    listSize g' dst = S (listSize g dst) ∧
    edges g' = edges g ∧
    _undoStack w' =
      mkUndoStack (Macro ("Insert and Add Edge on " +:+ fullName dst) [append]
                         :: history (_undoStack w))
                  [] 0 "" [].
Proof.
  intros Hg Hd Hdst Hsrc new append Hacc.
  assert (Hsz : listSize (redoImpl append g) dst = S (listSize g dst)).
  { unfold listSize at 1. simpl. by rewrite lookup_insert_eq. }
  unfold addEdge. rewrite Hdst, Hsrc. cbn [andb negb].
  set (title := ("Insert and Add Edge on " +:+ fullName dst)%string).
  unfold groupedGraphModification. cbv beta zeta.
  set (w1 := set_undoStack (beginMacro title (_undoStack w)) w).
  unfold appendAttribute, push. cbv beta iota zeta. fold append.
  rewrite (tryAndPush_accepted append w1 g) by done. cbn [snd].
  set (w2 := set_undoStack _ _).
  assert (Hlast : at_last dst w2 = Ok new).
  { unfold at_last. change (_graph w2) with (Some (redoImpl append g)).
    cbv beta iota. by rewrite Hsz. }
  rewrite Hlast. cbn [mbind Result_bind].
  rewrite (tryAndPush_rejected (AddEdgeCommand src new) w2 (redoImpl append g)) by done.
  cbn [snd].
  assert (Hu : endMacro (_undoStack w2) =
               Ok (mkUndoStack (Macro title [append] :: history (_undoStack w)) [] 0 "" [])).
  { unfold w2, w1, beginMacro. simpl. by rewrite Hd. }
  rewrite Hu. cbn [mbind Result_bind].
  eexists _, (redoImpl append g). split; [reflexivity|]. by repeat split.
Qed.

(** X15.  When [dst] is not a list attribute, or [src] is one too, [addEdge]
    pushes the single command.  If the graph refuses the edge nothing
    changes at all.  If it accepts, [dst] is connected to [src], no list
    grows, the command is the newest entry of the undo history and the redo
    tail is empty; undoing it removes the edge again. *)
Theorem addEdge_plain (src dst : Attribute) (w : World) (g : Graph) :
  isListAttribute dst = false ∨ isListAttribute src = true →
  _graph w = Some g →
  macroDepth (_undoStack w) = 0%nat →
  (edgeAccepted g src dst = false → addEdge src dst w = Ok w) ∧
  (edgeAccepted g src dst = true →
   ∃ w' g' gu,
     addEdge src dst w = Ok w' ∧ _graph w' = Some g' ∧
     edges g' !! dst = Some src ∧ listSizes g' = listSizes g ∧
     history (_undoStack w') = Single (AddEdgeCommand src dst) :: history (_undoStack w) ∧
     redoTail (_undoStack w') = [] ∧
     _graph (undo w') = Some gu ∧ edges gu !! dst = None ∧
     history (_undoStack (undo w')) = history (_undoStack w)).
Proof.
  intros Hkind Hg Hd.
  assert (Hplain : addEdge src dst w = Ok (push (AddEdgeCommand src dst) w).2).
  { unfold addEdge. by destruct Hkind as [-> | ->]; rewrite ?andb_false_r. }
  rewrite Hplain. unfold push. split; intros Hacc.
  - by rewrite (tryAndPush_rejected _ w g).
  - rewrite (tryAndPush_accepted _ w g) by done. cbn [snd].
    eexists _, _, _. split; [reflexivity|]. simpl. split; [reflexivity|].
    unfold record, undo. simpl. rewrite Hd. simpl.
    split; [by rewrite lookup_insert_eq|]. split; [done|]. split; [done|]. split; [done|].
    split; [reflexivity|]. unfold undoEntry. simpl. by rewrite lookup_delete_eq.
Qed.

End MoreEdits.

(** ** From a status record to the computation state *)

Section Propagation.
Context {K : Collaborators}.
Variables (fs : FileSystem) (c : NodeChunk) (s : Status).
Hypothesis s_computing : s = RUNNING ∨ s = SUBMITTED.

Lemma flagsUpToDate_reported (w : World) :
  flagsUpToDate w → c ∈ _sortedDFSChunks w → status w c = s → statusReported c s w.
Proof.
  intros [Hr Hs] Hin Hst. split; [done|]. rewrite Hr, Hs. apply orb_true_iff.
  destruct s_computing as [-> | ->]; [left|right]; apply anyStatus_true; by exists c.
Qed.

Lemma checkFileTimes_step_announced t w :
  is_Some (lastModificationRecords w !! c) →
  changed fs c t = true → announces fs c (status w c) = true →
  ∃ w', checkFileTimes_step fs w (c, t) = Ok w' ∧ flagsUpToDate w'.
Proof.
  intros Hin Hch Hann. unfold checkFileTimes_step. cbn [fst snd].
  rewrite getFileLastModTime_indicator. cbn [mbind Result_bind].
  unfold changed in Hch. apply bool_decide_eq_true in Hch. rewrite decide_True by done.
  set (w1 := set_records _ w). unfold chunk_updateStatusFromCache.
  change (status w1 c) with (status w c). unfold announces in Hann. rewrite Hann.
  set (w2 := set_chunkStatus _ _).
  destruct (onChunkStatusChanged_trace fs c w2) as (w3 & evs & -> & _ & _ & Hfl).
  { unfold w2, w1. simpl. rewrite lookup_insert_eq. by eexists. }
  cbn [mbind Result_bind]. eexists. split; [done|]. exact Hfl.
Qed.

Lemma checkFileTimes_step_keeps_reported c' t' w w' :
  is_Some (lastModificationRecords w !! c') → c' ≠ c → c ∈ _sortedDFSChunks w →
  checkFileTimes_step fs w (c', t') = Ok w' → statusReported c s w → statusReported c s w'.
Proof.
  intros Hin Hne Hc Hstep [Hst Hfl].
  pose proof (checkFileTimes_step_untouched fs c' t' w w' c Hin Hstep Hne) as Hu.
  apply untouched_status in Hu.
  destruct (checkFileTimes_step_spec fs c' t' w Hin) as (w2 & Hw2 & _ & _ & Hf & _).
  rewrite Hstep in Hw2. injection Hw2 as <-.
  destruct (checkFileTimes_step_trace fs c' t' w Hin) as (w2 & evs & Hw2 & _ & _ & Hflags).
  rewrite Hstep in Hw2. injection Hw2 as <-.
  destruct Hflags as [[Hr Hs]|Hup].
  - split; [congruence|]. by rewrite Hr, Hs.
  - apply flagsUpToDate_reported; [done| |congruence].
    destruct Hf as (_ & _ & _ & _ & ->). done.
Qed.

Lemma checkFileTimes_items_reported t (items : list (NodeChunk * Z)) :
  NoDup items.*1 →
  ∀ w, (∀ c' t', (c', t') ∈ items → lastModificationRecords w !! c' = Some t') →
       c ∈ _sortedDFSChunks w →
       (statusReported c s w ∧ c ∉ items.*1) ∨
       ((c, t) ∈ items ∧ changed fs c t = true ∧
        updateStatusFromCache fs c (status w c) = (s, true)) →
       ∃ w', foldM (checkFileTimes_step fs) items w = Ok w' ∧ statusReported c s w'.
Proof.
  induction items as [|[c0 t0] items IH]; intros Hnd w Hitems Hc Hcase.
  - destruct Hcase as [[Hrep _]|[Hin _]]; [by exists w | by apply elem_of_nil in Hin].
  - apply NoDup_cons in Hnd as [Hc0 Hnd]. simpl in Hc0.
    assert (Hw0 : lastModificationRecords w !! c0 = Some t0) by (apply Hitems; left).
    destruct (checkFileTimes_step_spec fs c0 t0 w) as (w1 & Hstep & _ & _ & Hf1 & _);
      [by eexists|].
    assert (Hother : ∀ c', c0 ≠ c' → untouched c' w w1).
    { intros c' Hne. eapply checkFileTimes_step_untouched; [by eexists|done..]. }
    assert (Hc1 : c ∈ _sortedDFSChunks w1) by (destruct Hf1 as (_ & _ & _ & _ & ->); done).
    assert (Hitems1 : ∀ c' t', (c', t') ∈ items → lastModificationRecords w1 !! c' = Some t').
    { intros c' t' Hct. destruct (Hother c') as (-> & _).
      - intros <-. apply Hc0. apply list_elem_of_fmap. by exists (c0, t').
      - apply Hitems. by right. }
    cbn [foldM]. rewrite Hstep. cbn [mbind Result_bind].
    apply (IH Hnd w1 Hitems1 Hc1).
    destruct Hcase as [[Hrep Hout]|(Hin & Hch & Hupd)].
    + apply not_elem_of_cons in Hout as [Hne Hout]. left. split; [|done].
      eapply checkFileTimes_step_keeps_reported; [by eexists | done | done | done | done].
    + apply elem_of_cons in Hin as [[= Ec Et]|Hin].
      * subst c0 t0. left. split; [|done].
        destruct (checkFileTimes_step_announced t w) as (w2 & Hw2 & Hup);
          [by eexists | done | by unfold announces; rewrite Hupd |].
        rewrite Hstep in Hw2. injection Hw2 as <-.
        apply flagsUpToDate_reported; [done | done |].
        destruct (checkFileTimes_step_polled fs c t w w1 Hw0 Hstep) as (_ & -> & _).
        by rewrite Hch, Hupd.
      * right. split; [done|]. split; [done|].
        assert (c0 ≠ c) as Hne.
        { intros ->. apply Hc0. apply list_elem_of_fmap. by exists (c, t). }
        by rewrite (untouched_status _ _ _ (Hother c Hne)).
Qed.

(** X17.  A poll tick carries a status read from a record through to the
    computation state.  When the record of a watched chunk of the sorted
    list has changed and its refresh announces the status RUNNING or
    SUBMITTED, then at the end of the tick the chunk holds that status and
    one of the aggregated flags is set, whatever happened to the other
    chunks during the tick: UIGraph reports a computation, an external one
    unless its own compute thread is alive. *)
Theorem checkFileTimes_reports_computation (t : Z) (w : World) :
  lastModificationRecords w !! c = Some t →
  c ∈ _sortedDFSChunks w →
  indicator fs (statusFile c) ≠ t →
  updateStatusFromCache fs c (status w c) = (s, true) →
  ∃ w', checkFileTimes fs w = Ok w' ∧ status w' c = s ∧
        isComputing w' = true ∧
        (isComputingLocally w = false → isComputingExternally w' = true).
Proof.
  intros Hw Hc Hne Hupd.
  destruct (checkFileTimes_items_reported t (map_to_list (lastModificationRecords w))
              (NoDup_fst_map_to_list _) w) as (w' & Hrun & Hst & Hfl).
  { intros c' t'. by rewrite elem_of_map_to_list. }
  { done. }
  { right. split; [by apply elem_of_map_to_list|]. split; [|done].
    unfold changed. by apply bool_decide_eq_true. }
  exists w'. split; [done|]. split; [done|].
  destruct (checkFileTimes_spec fs w) as (w2 & Hw2 & (_ & _ & _ & Ht & _) & _).
  unfold checkFileTimes in Hw2. rewrite Hrun in Hw2. injection Hw2 as <-.
  unfold isComputing, isComputingExternally, isComputingLocally. rewrite Hfl, Ht.
  split; [by destruct (is_alive _)|]. by intros ->.
Qed.

End Propagation.

(** ** The further properties at concrete states *)

Lemma UIGraph_init_balanced : connectionsBalanced UIGraph_init.
Proof. intros c. reflexivity. Qed.

Lemma connections_stay_balanced_witness :
  connectionsBalanced UIGraph_init ∧
  connectionsBalanced (ChunksMonitor_clear UIGraph_init) ∧
  ∃ w', setChunks fsT1 [chunkA; chunkB] UIGraph_init = Ok w' ∧ connectionsBalanced w'.
Proof.
  split; [exact UIGraph_init_balanced|].
  destruct (connections_stay_balanced (K := exampleCollaborators) fsT1 UIGraph_init
              UIGraph_init_balanced) as (Hset & Hclear & _).
  split; [exact Hclear|].
  destruct (setChunks_spec fsT1 [chunkA; chunkB] UIGraph_init) as (w' & Hw' & _).
  exists w'. split; [exact Hw'|]. apply (Hset [chunkA; chunkB] w'); [|exact Hw'].
  apply (bool_decide_unpack (NoDup [chunkA; chunkB])). vm_compute. exact I.
Defined.

Lemma onChunkStatusChanged_updates_flags_witness :
  is_Some (lastModificationRecords watchingA !! chunkA) ∧
  ∃ w', ChunksMonitor_onChunkStatusChanged fsT1 chunkA watchingA = Ok w' ∧ flagsUpToDate w'.
Proof.
  assert (HA : is_Some (lastModificationRecords watchingA !! chunkA))
    by (exists (-1); vm_compute; reflexivity).
  split; [exact HA|].
  destruct (onChunkStatusChanged_updates_flags fsT1 chunkA watchingA HA)
    as (w' & evs & Hw' & _ & _ & Hfl & _).
  exists w'. split; [exact Hw' | exact Hfl].
Defined.

Lemma execute_full_run_witness :
  isComputing edited = false ∧
  computeStatusChangedCount
    (_execute_leave (Raised "failed") (_execute_enter (execute None edited))) =
    S (S (computeStatusChangedCount edited)) ∧
  logErrorCount (_execute_leave (Raised "failed") (_execute_enter (execute None edited))) =
    S (logErrorCount edited).
Proof.
  assert (HI : isComputing edited = false) by reflexivity.
  split; [exact HI|].
  destruct (execute_full_run None None (Raised "failed") edited HI)
    as (_ & _ & Hc & He & _).
  split; [exact Hc|]. rewrite He. apply Nat.add_1_r.
Defined.

Lemma stopExecution_twice_witness :
  is_Some (_graph computing) ∧
  ∃ w', stopExecution Returned computing = Ok w' ∧ stopExecution Returned w' = Ok w'.
Proof.
  assert (HG : is_Some (_graph computing)) by (eexists; reflexivity).
  split; [exact HG|].
  destruct (stopExecution_twice Returned Returned computing HG) as (w' & H1 & H2 & _).
  exists w'. split; [exact H1 | exact H2].
Defined.

Lemma clear_then_stopExecution_raises_witness :
  isComputingLocally computing = true ∧
  stopExecution Returned (UIGraph_clear computing) = Raise AttributeError.
Proof.
  assert (HL : isComputingLocally computing = true) by reflexivity.
  split; [exact HL|].
  exact (proj2 (clear_then_stopExecution_raises Returned computing HL)).
Defined.

Lemma setGraph_without_graph_keeps_history_witness :
  _graph (UIGraph_clear UIGraph_init) = None ∧
  ∃ w', setGraph (K := exampleCollaborators) fsT1 Returned graphAB
                 (UIGraph_clear UIGraph_init) = Ok w' ∧
        _graph w' = Some graphAB ∧ _sortedDFSChunks w' = [chunkA; chunkB].
Proof.
  split; [reflexivity|].
  destruct (setGraph_without_graph_keeps_history (K := exampleCollaborators)
              fsT1 Returned graphAB (UIGraph_clear UIGraph_init) eq_refl)
    as (w' & Hw' & Hg & Hs & _).
  exists w'. split; [exact Hw'|]. split; [exact Hg | exact Hs].
Defined.

(** The graph installed in [edited] gives way to an empty one: the sorted
    list is empty while the monitor, if it watched chunks before, still
    does. *)
Lemma setGraph_watch_list_witness :
  _graph edited = Some (redoImpl (AddEdgeCommand plainOutput (mkAttr "B.input" 0 [])) graphAB) ∧
  ∃ w', setGraph (K := exampleCollaborators) fsT1 Returned (mkGraph [] ∅ ∅) edited = Ok w' ∧
        _sortedDFSChunks w' = [] ∧
        lastModificationRecords w' = lastModificationRecords edited.
Proof.
  split; [reflexivity|].
  destruct (setGraph_watch_list (K := exampleCollaborators) fsT1 Returned (mkGraph [] ∅ ∅)
              (redoImpl (AddEdgeCommand plainOutput (mkAttr "B.input" 0 [])) graphAB)
              edited eq_refl) as (w' & Hw' & Hs & Hkeep & _).
  exists w'. split; [exact Hw'|]. split; [exact Hs | exact (Hkeep eq_refl)].
Defined.

Lemma addEdge_rejected_edge_leaves_element_witness :
  isListAttribute listInput = true ∧ isListAttribute plainOutput = false ∧
  ∃ w' g', addEdge (K := rejectingCollaborators) plainOutput listInput
                   (set_graph (Some graphAB) UIGraph_init) = Ok w' ∧
           _graph w' = Some g' ∧
           listSize g' listInput = 1%nat ∧ edges g' = edges graphAB.
Proof.
  split; [reflexivity|]. split; [reflexivity|].
  destruct (addEdge_rejected_edge_leaves_element (K := rejectingCollaborators)
              plainOutput listInput (set_graph (Some graphAB) UIGraph_init) graphAB)
    as (w' & g' & Hw' & Hg' & Hsz & He & _); try reflexivity.
  exists w', g'. split; [exact Hw'|]. split; [exact Hg'|]. split; [exact Hsz | exact He].
Defined.

Lemma addEdge_plain_witness :
  isListAttribute (mkAttr "B.input" 0 []) = false ∧
  ∃ w' g', addEdge (K := exampleCollaborators) plainOutput (mkAttr "B.input" 0 [])
                   (set_graph (Some graphAB) UIGraph_init) = Ok w' ∧
           _graph w' = Some g' ∧ edges g' !! mkAttr "B.input" 0 [] = Some plainOutput.
Proof.
  split; [reflexivity|].
  destruct (addEdge_plain (K := exampleCollaborators) plainOutput (mkAttr "B.input" 0 [])
              (set_graph (Some graphAB) UIGraph_init) graphAB
              (or_introl eq_refl) eq_refl eq_refl) as (_ & Hacc).
  destruct (Hacc eq_refl) as (w' & g' & gu & Hw' & Hg' & He & _).
  exists w', g'. split; [exact Hw'|]. split; [exact Hg' | exact He].
Defined.

Lemma checkFileTimes_reports_computation_witness :
  lastModificationRecords watchingA !! chunkA = Some (-1) ∧
  chunkA ∈ _sortedDFSChunks watchingA ∧
  isComputing watchingA = false ∧
  ∃ w', checkFileTimes (K := exampleCollaborators) fsT1 watchingA = Ok w' ∧
        status w' chunkA = RUNNING ∧ isComputingExternally w' = true.
Proof.
  assert (HA : lastModificationRecords watchingA !! chunkA = Some (-1))
    by (vm_compute; reflexivity).
  assert (HS : chunkA ∈ _sortedDFSChunks watchingA) by (vm_compute; left).
  split; [exact HA|]. split; [exact HS|]. split; [vm_compute; reflexivity|].
  destruct (checkFileTimes_reports_computation (K := exampleCollaborators)
              fsT1 chunkA RUNNING (or_introl eq_refl) (-1) watchingA HA HS)
    as (w' & Hw' & Hst & _ & Hext).
  - vm_compute. discriminate.
  - vm_compute. reflexivity.
  - exists w'. split; [exact Hw'|]. split; [exact Hst|]. apply Hext. vm_compute. reflexivity.
Defined.

(** * The poll tick when the environment can fail *)

Section FallibleTick.
Variables (env : Environment) (fs : FileSystem).
Hypothesis files_stable : ∀ j, filesAt env j = fs.
Hypothesis refresh_returns : ∀ j c s, ∃ s' a, refreshAt env j c s = Refreshed s' a.

Lemma getFileLastModTime_at_stable (f : string) (k : nat) :
  ∃ k', getFileLastModTime_at env f k = (Ok (indicator fs f), k').
Proof.
  unfold getFileLastModTime_at. rewrite !files_stable.
  unfold os_path_exists, os_path_getmtime, os_stat, indicator.
  destruct (fs f); by eexists.
Qed.

(** While the files stay as they are, the slot of the monitor does in this
    environment what it does on the one state of the files. *)
Lemma onChunkStatusChanged_at_stable (c : NodeChunk) (k : nat) (w w' : World) :
  ChunksMonitor_onChunkStatusChanged fs c w = Ok w' →
  ∃ k', ChunksMonitor_onChunkStatusChanged_at env c k w = Completed k' w'.
Proof.
  unfold ChunksMonitor_onChunkStatusChanged, ChunksMonitor_onChunkStatusChanged_at.
  destruct (decide _); [|done].
  destruct (getFileLastModTime_at_stable (statusFile c) k) as (k' & ->).
  rewrite getFileLastModTime_indicator. cbn [mbind Result_bind]. intros [= <-]. by exists k'.
Qed.

Lemma chunk_updateStatusFromCache_at_spec (c : NodeChunk) (k : nat) (w : World) :
  lastModificationRecords w !! c = Some (indicator fs (statusFile c)) →
  ∃ k' w', chunk_updateStatusFromCache_at env c k w = Completed k' w' ∧
           lastModificationRecords w' = lastModificationRecords w ∧
           ∀ c', refreshCount c' w' = (refreshCount c' w + delta (bool_decide (c = c')))%nat.
Proof.
  intros Hc. unfold chunk_updateStatusFromCache_at.
  destruct (refresh_returns k c (status w c)) as (s' & a & ->).
  set (w1 := set_chunkStatus _ _).
  assert (Hrc : ∀ c', refreshCount c' w1 = (refreshCount c' w + delta (bool_decide (c = c')))%nat).
  { intros c'. unfold refreshCount, w1. simpl. rewrite countb_snoc. f_equal.
    unfold isRefresh. apply f_equal, bool_decide_ext. split; congruence. }
  destruct a.
  - destruct (onChunkStatusChanged_watched fs c w1)
      as (w2 & Hw2 & Hr & _ & _ & Hc1 & _); [by eexists|].
    destruct (onChunkStatusChanged_at_stable c (S k) w1 w2 Hw2) as (k' & ->).
    exists k', w2. split; [done|]. split.
    + rewrite Hr. unfold w1. simpl. by apply insert_id.
    + intros c'. by rewrite Hc1, Hrc.
  - by exists (S k), w1.
Qed.

Lemma checkFileTimes_step_at_spec (c : NodeChunk) (t : Z) (k : nat) (w : World) :
  ∃ k' w', checkFileTimes_step_at env k w (c, t) = Completed k' w' ∧
           lastModificationRecords w' =
             (if changed fs c t
              then <[c := indicator fs (statusFile c)]> (lastModificationRecords w)
              else lastModificationRecords w) ∧
           ∀ c', refreshCount c' w' =
                 (refreshCount c' w + delta (bool_decide (c = c') && changed fs c t))%nat.
Proof.
  unfold checkFileTimes_step_at, changed. cbn [fst snd].
  destruct (getFileLastModTime_at_stable (statusFile c) k) as (k1 & ->).
  set (ind := indicator fs (statusFile c)).
  destruct (decide (ind ≠ t)) as [Hne|Heq].
  - rewrite bool_decide_true by done.
    set (w1 := set_records _ w).
    destruct (chunk_updateStatusFromCache_at_spec c k1 w1) as (k2 & w2 & -> & Hr & Hc).
    { unfold w1. simpl. apply lookup_insert_eq. }
    eexists _, _. split; [done|]. simpl. split; [by rewrite Hr|].
    intros c'. unfold refreshCount in *. simpl. rewrite countb_snoc, Hc. simpl.
    rewrite andb_true_r. unfold w1. simpl. lia.
  - rewrite bool_decide_false by done. exists k1, w. split; [done|]. split; [done|].
    intros c'. rewrite andb_false_r. simpl. lia.
Qed.

Lemma checkFileTimes_loop_at_spec (items : list (NodeChunk * Z)) :
  NoDup items.*1 →
  ∀ k w, (∀ c t, (c, t) ∈ items → lastModificationRecords w !! c = Some t) →
  ∃ k' w', checkFileTimes_loop_at env items k w = Completed k' w' ∧
           (∀ c, c ∉ items.*1 →
                 lastModificationRecords w' !! c = lastModificationRecords w !! c ∧
                 refreshCount c w' = refreshCount c w) ∧
           (∀ c t, (c, t) ∈ items →
                   lastModificationRecords w' !! c = Some (indicator fs (statusFile c)) ∧
                   refreshCount c w' = (refreshCount c w + delta (changed fs c t))%nat).
Proof.
  induction items as [|[c0 t0] items IH]; intros Hnd k w Hitems.
  - exists k, w. split; [done|]. split; [done|]. intros c t Hin. by apply elem_of_nil in Hin.
  - apply NoDup_cons in Hnd as [Hc0 Hnd]. simpl in Hc0.
    destruct (checkFileTimes_step_at_spec c0 t0 k w) as (k1 & w1 & Hstep & Hr1 & Hc1).
    assert (Hother : ∀ c, c0 ≠ c →
              lastModificationRecords w1 !! c = lastModificationRecords w !! c ∧
              refreshCount c w1 = refreshCount c w).
    { intros c Hne. rewrite Hr1, Hc1. rewrite bool_decide_false by done. simpl.
      split; [|lia]. destruct (changed fs c0 t0); [by apply lookup_insert_ne | done]. }
    assert (Hin0 : ∀ c t, (c, t) ∈ items → c0 ≠ c).
    { intros c t Hct <-. apply Hc0. apply list_elem_of_fmap. by exists (c0, t). }
    destruct (IH Hnd k1 w1) as (k' & w' & Hloop & Hout & Hin).
    { intros c t Hct. destruct (Hother c (Hin0 c t Hct)) as [-> _]. apply Hitems. by right. }
    exists k', w'. cbn [checkFileTimes_loop_at]. rewrite Hstep. split; [done|]. split.
    + intros c Hc. apply not_elem_of_cons in Hc as [Hne Hc].
      destruct (Hout c Hc) as [-> ->]. apply Hother. intros <-. by apply Hne.
    + intros c t Hct. apply elem_of_cons in Hct as [[= -> ->]|Hct].
      * destruct (Hout c0 Hc0) as [-> ->]. rewrite Hr1, Hc1.
        rewrite bool_decide_true by done. simpl. split; [|done].
        unfold changed. case_bool_decide as Hch; [apply lookup_insert_eq|].
        rewrite (Hitems c0 t0) by left. by rewrite Hch.
      * destruct (Hin c t Hct) as [-> ->].
        destruct (Hother c (Hin0 c t Hct)) as [_ ->]. done.
Qed.

(** C1, amended.  Provided the files do not change during the tick and the
    refresh of a chunk returns, no exception leaves the tick, whatever the
    state of the status records: a record that does not exist or cannot be
    examined reads as the absent value [-1], and every watched chunk is
    polled, whatever the records of the other chunks are like: its stored
    value becomes the current indicator and it is refreshed exactly when
    that differs from the value stored before. *)
Theorem checkFileTimes_at_returns (k : nat) (w : World) :
  ∃ k' w', checkFileTimes_at env k w = Completed k' w' ∧
           ∀ c t, lastModificationRecords w !! c = Some t →
                  lastModificationRecords w' !! c = Some (indicator fs (statusFile c)) ∧
                  (fs (statusFile c) = Missing ∨ fs (statusFile c) = Unreadable →
                   lastModificationRecords w' !! c = Some (-1)) ∧
                  refreshCount c w' = (refreshCount c w + delta (changed fs c t))%nat.
Proof.
  destruct (checkFileTimes_loop_at_spec (map_to_list (lastModificationRecords w))
              (NoDup_fst_map_to_list _) k w) as (k' & w' & Hrun & _ & Hin).
  { intros c t. by rewrite elem_of_map_to_list. }
  exists k', w'. split; [done|]. intros c t Hct.
  destruct (Hin c t) as [Hr Hc]; [by apply elem_of_map_to_list|].
  split; [done|]. split; [|done].
  intros Hf. rewrite Hr. unfold indicator. by destruct Hf as [-> | ->].
Qed.

End FallibleTick.

(** In the environment in which the files stay as [fs] and the refresh is
    that of the collaborators, the tick is the tick over [fs]. *)
Lemma checkFileTimes_at_quiet {K : Collaborators} (fs : FileSystem) (k : nat) (w w' : World) :
  checkFileTimes fs w = Ok w' →
  ∃ k', checkFileTimes_at (quietEnvironment fs) k w = Completed k' w'.
Proof.
  unfold checkFileTimes, checkFileTimes_at.
  generalize (map_to_list (lastModificationRecords w)) as items. intros items.
  revert k w. induction items as [|[c t] items IH]; intros k w.
  - intros [= <-]. by exists k.
  - cbn [foldM checkFileTimes_loop_at].
    destruct (checkFileTimes_step fs w (c, t)) as [w1|] eqn:Hstep; [|done].
    cbn [mbind Result_bind]. intros Hrest.
    assert (∃ k1, checkFileTimes_step_at (quietEnvironment fs) k w (c, t) = Completed k1 w1)
      as (k1 & ->).
    { revert Hstep. unfold checkFileTimes_step, checkFileTimes_step_at. cbn [fst snd].
      destruct (getFileLastModTime_at_stable (quietEnvironment fs) fs (fun _ => eq_refl)
                  (statusFile c) k) as (k1 & ->).
      rewrite getFileLastModTime_indicator. cbn [mbind Result_bind].
      destruct (decide _); [|intros [= <-]; by exists k1].
      unfold chunk_updateStatusFromCache, chunk_updateStatusFromCache_at. simpl.
      destruct ((updateStatusFromCache fs c _).2).
      - match goal with |- context [ChunksMonitor_onChunkStatusChanged fs c ?x] =>
          destruct (ChunksMonitor_onChunkStatusChanged fs c x) as [w2|] eqn:Hslot end; [|done].
        destruct (onChunkStatusChanged_at_stable (quietEnvironment fs) fs (fun _ => eq_refl)
                    c (S k1) _ w2 Hslot) as (k2 & ->).
        cbn [mbind Result_bind]. intros [= <-]. by exists k2.
      - cbn [mbind Result_bind]. intros [= <-]. by eexists. }
    by apply IH.
Qed.

(** ** The rejected readings, at concrete states *)

(** C1 as stated fails: nothing in the tick catches an exception.  With
    [chunkA] and [chunkB] watched and both records changed, the refresh of
    [chunkA] raises on a record that cannot be opened: the error leaves the
    tick and [chunkB] is not polled, its stored value stays [-1] though its
    indicator is 7.  And when the status file of [chunkA] goes away between
    the existence test and the reading of its time, the error of
    [os.path.getmtime] leaves the tick as well. *)
Lemma checkFileTimes_at_raises :
  lastModificationRecords watchingAB !! chunkA = Some (-1) ∧
  lastModificationRecords watchingAB !! chunkB = Some (-1) ∧
  indicator fsBoth (statusFile chunkB) = 7 ∧
  match checkFileTimes_at envCannotOpenA 0 watchingAB with
  | Aborted e _ w' =>
      e = OSError ∧
      lastModificationRecords w' !! chunkB = Some (-1) ∧
      refreshCount chunkB w' = 0%nat
  | Completed _ _ => False
  end ∧
  match checkFileTimes_at envVanishingA 0 watchingA with
  | Aborted e _ _ => e = OSError
  | Completed _ _ => False
  end.
Proof. vm_compute. repeat split; congruence. Qed.

Lemma checkFileTimes_at_returns_witness :
  (∀ j, filesAt (quietEnvironment (K := exampleCollaborators) fsUnreadableA) j = fsUnreadableA) ∧
  ∃ k' w', checkFileTimes_at (quietEnvironment (K := exampleCollaborators) fsUnreadableA)
                             0 watchingAB = Completed k' w' ∧
           lastModificationRecords w' !! chunkA = Some (-1) ∧
           lastModificationRecords w' !! chunkB = Some 7.
Proof.
  split; [reflexivity|].
  destruct (checkFileTimes_at_returns
              (quietEnvironment (K := exampleCollaborators) fsUnreadableA) fsUnreadableA
              (fun _ => eq_refl)
              (fun _ c s => ex_intro _ _ (ex_intro _ _ eq_refl)) 0%nat watchingAB)
    as (k' & w' & Hrun & Hall).
  exists k', w'. split; [exact Hrun|]. split.
  - destruct (Hall chunkA (-1)) as (_ & Habs & _); [vm_compute; reflexivity|].
    apply Habs. right. reflexivity.
  - destruct (Hall chunkB (-1)) as (Hr & _); [vm_compute; reflexivity|]. exact Hr.
Defined.


(** C7.  [stopExecution] with a live compute thread and no graph.  After
    [execute] and then [clear], the compute thread is alive and the graph
    is gone: [stopExecution] raises on the missing graph, before it has
    asked for anything to stop, joined the thread or emitted anything. *)
Lemma stopExecution_after_clear_raises :
  isComputingLocally computing = true ∧
  isComputingLocally clearedWhileComputing = true ∧
  _graph clearedWhileComputing = None ∧
  stopExecution Returned clearedWhileComputing = Raise AttributeError.
Proof. vm_compute. repeat split; congruence. Qed.
